(** * GasGuard scan API: timeout-bounded scan execution

    A shallow embedding of the scan coordinators of [apps/api/src/scan]:

    - [scan.service.ts]        ([ScanService], races the scan against a timer
                               with [Promise.race]),
    - [worker-scan.service.ts] ([WorkerScanService], runs the scan in a worker
                               thread behind an [isResolved] flag),
    - [workers/scan.worker.ts] (the script executed inside the worker thread),
    - [interfaces/scan.interface.ts] (the result and error shapes).

    JavaScript values are modelled only as far as the code inspects them.
    Time is not modelled: a run of a job is the sequence of signals in the
    order in which the Node.js event loop delivers them. *)

From Stdlib Require Import ZArith List String Ascii Bool Lia DecimalString.
Import ListNotations.

Set Warnings "-register-all".

Local Open Scope string_scope.
Local Open Scope Z_scope.

(* ===================================================================== *)
(** ** JavaScript values *)
(* ===================================================================== *)

Module Js.

(** A JavaScript [number] as the scan code uses it: a count of milliseconds
    or an exit code.  [Num z] is the number whose value is the integer [z];
    [NaN] is kept because [||] treats it like [0]. *)
Inductive number : Type :=
| Num (z : Z)
| NaN.

(** The values a [catch] clause or a [details] field can hold.  An object is
    the list of its own properties in insertion order; [JError] is an object
    for which [instanceof Error] holds, with its [message]. *)
Inductive value : Type :=
| JUndefined
| JNull
| JBool (b : bool)
| JNum (n : number)
| JStr (s : string)
| JFunction
| JObject (props : list (string * value))
| JError (message : string) (props : list (string * value)).

(** [ToBoolean], the test behind [||], [&&], [!] and [if]. *)
Class ToBoolean (A : Type) := to_boolean : A -> bool.

#[global] Instance number_ToBoolean : ToBoolean number :=
  fun n => match n with
           | Num z => negb (z =? 0)
           | NaN => false
           end.

#[global] Instance string_ToBoolean : ToBoolean string :=
  fun s => match s with
           | EmptyString => false
           | String _ _ => true
           end.

#[global] Instance value_ToBoolean : ToBoolean value :=
  fun v => match v with
           | JUndefined | JNull => false
           | JBool b => b
           | JNum n => to_boolean n
           | JStr s => to_boolean s
           | JFunction | JObject _ | JError _ _ => true
           end.

(** An optional property ([x?: T], or [options?.x]) reads as [undefined]
    when it is absent. *)
#[global] Instance optional_ToBoolean {A} `{ToBoolean A} : ToBoolean (option A) :=
  fun o => match o with
           | Some a => to_boolean a
           | None => false
           end.

(** [a || b] where [a] may be [undefined] and [b] is the default. *)
Definition or_else {A} `{ToBoolean A} (a : option A) (b : A) : A :=
  match a with
  | Some x => if to_boolean x then x else b
  | None => b
  end.

(** [ToString] on numbers, as a template literal applies it: the decimal
    digits of an integer (JavaScript switches to exponent notation only from
    [1e21] on). *)
Definition number_to_string (n : number) : string :=
  match n with
  | Num z => NilZero.string_of_int (Z.to_int z)
  | NaN => "NaN"
  end.

(** [typeof v === 'object'] *)
Definition typeof_object (v : value) : bool :=
  match v with
  | JNull | JObject _ | JError _ _ => true
  | _ => false
  end.

(** [v instanceof Error] *)
Definition instanceof_Error (v : value) : bool :=
  match v with
  | JError _ _ => true
  | _ => false
  end.

Fixpoint lookup (k : string) (props : list (string * value)) : option value :=
  match props with
  | [] => None
  | (k', v) :: rest => if String.eqb k k' then Some v else lookup k rest
  end.

Definition properties (v : value) : list (string * value) :=
  match v with
  | JObject props => props
  | JError m props => ("message", JStr m) :: props
  | _ => []
  end.

(** [k in v] for an object [v] *)
Definition has_property (k : string) (v : value) : bool :=
  match lookup k (properties v) with
  | Some _ => true
  | None => false
  end.

(** [v.k]; a missing property reads as [undefined]. *)
Definition get (v : value) (k : string) : value :=
  match lookup k (properties v) with
  | Some x => x
  | None => JUndefined
  end.

(** [v === s] for a string literal [s] *)
Definition strict_eq_string (v : value) (s : string) : bool :=
  match v with
  | JStr s' => String.eqb s' s
  | _ => false
  end.

(** The structured clone algorithm, which [postMessage] applies to what it
    sends.  A function cannot be cloned, and neither can an object that
    holds one.  An [Error] is always cloned: the clone keeps its message and
    none of its other own properties. *)
Fixpoint structured_clone (v : value) : option value :=
  match v with
  | JFunction => None
  | JObject props =>
      match
        (fix clone_all (ps : list (string * value))
           : option (list (string * value)) :=
           match ps with
           | [] => Some []
           | (k, x) :: rest =>
               match structured_clone x, clone_all rest with
               | Some x', Some rest' => Some ((k, x') :: rest')
               | _, _ => None
               end
           end) props
      with
      | Some props' => Some (JObject props')
      | None => None
      end
  | JError m _ => Some (JError m [])
  | _ => Some v
  end.

End Js.
Import Js.

(** [s] occurs inside [t]. *)
Definition contains (t s : string) : Prop :=
  exists pre post, t = pre ++ s ++ post.

(* ===================================================================== *)
(** ** interfaces/scan.interface.ts *)
(* ===================================================================== *)

Inductive ScanStatus : Type :=
| status_completed
| status_failed
| status_timeout.

Inductive Severity : Type :=
| severity_error
| severity_warning
| severity_info.

Record Location : Type := {
  line : number;
  column : number;
  file : option string
}.

Record ScanFinding : Type := {
  ruleId : string;
  severity : Severity;
  finding_message : string;
  location : option Location;
  suggestion : option string
}.

Record Metadata : Type := {
  contractSize : option number;
  rulesApplied : option (list string)
}.

Record ScanResult : Type := {
  result_scanId : string;
  status : ScanStatus;
  findings : list ScanFinding;
  executionTime : number;
  metadata : option Metadata
}.

Inductive ErrorCode : Type := SCAN_TIMEOUT | SCAN_ERROR | INVALID_INPUT.

Definition code_string (c : ErrorCode) : string :=
  match c with
  | SCAN_TIMEOUT => "SCAN_TIMEOUT"
  | SCAN_ERROR => "SCAN_ERROR"
  | INVALID_INPUT => "INVALID_INPUT"
  end.

Record ScanError : Type := {
  code : ErrorCode;
  message : string;
  scanId : option string;
  timeoutMs : option number;
  details : option value
}.

(** The object a [ScanError] literal denotes: optional fields that the
    literal leaves out are not properties of the object. *)
Definition optional_property {A} (k : string) (inj : A -> value) (o : option A)
  : list (string * value) :=
  match o with
  | Some a => [(k, inj a)]
  | None => []
  end.

Definition ScanError_object (e : ScanError) : value :=
  JObject ([("code", JStr (code_string (code e)));
            ("message", JStr (message e))]
           ++ optional_property "scanId" JStr (scanId e)
           ++ optional_property "timeoutMs" JNum (timeoutMs e)
           ++ optional_property "details" (fun v => v) (details e)).

(** How a promise of a scan ends. *)
Inductive settlement : Type :=
| Fulfilled (r : ScanResult)
| Rejected (e : value).

(** A promise settles once: a later [resolve] or [reject] has no effect. *)
Definition settle (p : option settlement) (s : settlement) : option settlement :=
  match p with
  | Some _ => p
  | None => Some s
  end.

Inductive log_entry : Type :=
| LogInfo (text : string)
| LogWarn (text : string)
| LogError (text : string).

(** [ConfigService.get<number>(key)] *)
Definition ConfigService : Type := string -> option number.

(** [options?: { timeoutMs?: number; scanId?: string }] *)
Record ScanOptions : Type := {
  opt_timeoutMs : option number;
  opt_scanId : option string
}.

(** [options?.timeoutMs] and [options?.scanId] *)
Definition options_timeoutMs (options : option ScanOptions) : option number :=
  match options with
  | Some o => opt_timeoutMs o
  | None => None
  end.

Definition options_scanId (options : option ScanOptions) : option string :=
  match options with
  | Some o => opt_scanId o
  | None => None
  end.

(** The two constants every [executeScan*] call computes first. *)
Record Job : Type := {
  job_timeoutMs : number;
  job_scanId : string
}.

(* ===================================================================== *)
(** ** scan.service.ts *)
(* ===================================================================== *)

Module ScanService.

Record t : Type := { maxExecutionTime : number }.

(** [constructor(private configService: ConfigService)] *)
Definition constructor (configService : ConfigService) : t * list log_entry :=
  let m := or_else (configService "SCAN_MAX_EXECUTION_TIME_MS") (Num 30000) in
  ({| maxExecutionTime := m |},
   [LogInfo ("Scan service initialized with max execution time: "
             ++ number_to_string m ++ "ms")]).

Definition getMaxExecutionTime (this : t) : number := maxExecutionTime this.

(** Lines 29-30 of [executeScan]; [generated] is the value that
    [this.generateScanId()] would return for this call. *)
Definition job (this : t) (options : option ScanOptions) (generated : string) : Job :=
  {| job_timeoutMs := or_else (options_timeoutMs options) (maxExecutionTime this);
     job_scanId := or_else (options_scanId options) generated |}.

(** What the placeholder [performScan] (lines 77-93) returns after its
    100 ms; [now] is [Date.now()].  The coordinator below does not depend on
    it: it takes whatever the promise of [performScan] settles with. *)
Definition performScan (scanId : string) (now : number) : ScanResult :=
  {| result_scanId := scanId;
     status := status_completed;
     findings := [];
     executionTime := now;
     metadata := None |}.

(** What the event loop can deliver to one [executeScan] call: the promise
    returned by [performScan] is fulfilled or rejected, or the callback given
    to [setTimeout] is run. *)
Inductive signal : Type :=
| ScanFulfilled (result : ScanResult)
| ScanRejected (error : value)
| TimerFired.

(** The object built by the [setTimeout] callback (lines 37-42). *)
Definition timeoutError (j : Job) : ScanError :=
  {| code := SCAN_TIMEOUT;
     message := "Scan exceeded maximum execution time of "
                ++ number_to_string (job_timeoutMs j) ++ "ms";
     scanId := Some (job_scanId j);
     timeoutMs := Some (job_timeoutMs j);
     details := None |}.

(** The test of line 60:
    [error && typeof error === 'object' && 'code' in error
     && error.code === 'SCAN_TIMEOUT'] *)
Definition is_timeout_error (error : value) : bool :=
  to_boolean error
  && typeof_object error
  && has_property "code" error
  && strict_eq_string (get error "code") "SCAN_TIMEOUT".

(** The object thrown on lines 65-69. *)
Definition wrappedError (j : Job) (error : value) : ScanError :=
  {| code := SCAN_ERROR;
     message := match error with
                | JError m _ => m
                | _ => "Unknown scan error"
                end;
     scanId := Some (job_scanId j);
     timeoutMs := None;
     details := None |}.

(** The [try]/[catch] around [await Promise.race(...)] (lines 54-70): what
    [executeScan] logs and how its own promise ends, given how the race
    ended. *)
Definition after_race (j : Job) (raced : settlement) : list log_entry * settlement :=
  match raced with
  | Fulfilled result =>
      ([LogInfo ("Scan " ++ job_scanId j ++ " completed successfully")],
       Fulfilled result)
  | Rejected error =>
      if is_timeout_error error then ([], Rejected error)
      else ([LogError ("Scan " ++ job_scanId j ++ " failed with error:")],
            Rejected (ScanError_object (wrappedError j error)))
  end.

(** One call of [executeScan] in flight.  [returned] collects every
    completion of the function body, in order: the caller observes them. *)
Record state : Type := {
  scanPromise : option settlement;
  timeoutPromise : option settlement;
  race : option settlement;
  returned : list settlement;
  log : list log_entry
}.

(** Lines 29-51: the state when [executeScan] reaches its [await]. *)
Definition start (j : Job) : state :=
  {| scanPromise := None;
     timeoutPromise := None;
     race := None;
     returned := [];
     log := [LogInfo ("Starting scan " ++ job_scanId j ++ " with timeout: "
                      ++ number_to_string (job_timeoutMs j) ++ "ms")] |}.

(** [Promise.race]: the race takes the settlement of the first of its
    promises to settle; the function body then resumes, once. *)
Definition race_settles (j : Job) (s : state) (by_ : settlement) : state :=
  match race s with
  | Some _ => s
  | None =>
      let completion := after_race j by_ in
      {| scanPromise := scanPromise s;
         timeoutPromise := timeoutPromise s;
         race := Some by_;
         returned := returned s ++ [snd completion];
         log := log s ++ fst completion |}
  end.

Definition scan_settles (j : Job) (s : state) (by_ : settlement) : state :=
  match scanPromise s with
  | Some _ => s
  | None =>
      race_settles j
        {| scanPromise := Some by_;
           timeoutPromise := timeoutPromise s;
           race := race s;
           returned := returned s;
           log := log s |}
        by_
  end.

(** The [setTimeout] callback (lines 36-47); a timer runs its callback
    once. *)
Definition timer_fires (j : Job) (s : state) : state :=
  match timeoutPromise s with
  | Some _ => s
  | None =>
      let error := Rejected (ScanError_object (timeoutError j)) in
      race_settles j
        {| scanPromise := scanPromise s;
           timeoutPromise := Some error;
           race := race s;
           returned := returned s;
           log := log s ++ [LogWarn ("Scan " ++ job_scanId j ++ " timed out after "
                                     ++ number_to_string (job_timeoutMs j) ++ "ms")] |}
        error
  end.

Definition step (j : Job) (s : state) (sig : signal) : state :=
  match sig with
  | ScanFulfilled result => scan_settles j s (Fulfilled result)
  | ScanRejected error => scan_settles j s (Rejected error)
  | TimerFired => timer_fires j s
  end.

Definition run (j : Job) (signals : list signal) : state :=
  fold_left (step j) signals (start j).

(** What a signal brings to the race. *)
Definition signal_settlement (j : Job) (sig : signal) : settlement :=
  match sig with
  | ScanFulfilled result => Fulfilled result
  | ScanRejected error => Rejected error
  | TimerFired => Rejected (ScanError_object (timeoutError j))
  end.

(** [executeScan(contractCode, options)] on a service built from
    [configService], under the signals the event loop delivers. *)
Definition executeScan (configService : ConfigService)
    (options : option ScanOptions) (generated : string)
    (signals : list signal) : list settlement :=
  returned (run (job (fst (constructor configService)) options generated) signals).

(** [generateScanId()] (lines 98-100).  [now] is [Date.now()] and [random]
    the text of [Math.random().toString(36).substr(2, 9)]. *)
Definition generateScanId (now : number) (random : string) : string :=
  "scan_" ++ number_to_string now ++ "_" ++ random.

(** The entry that [timer_fires] writes. *)
Definition timeout_warning (j : Job) : log_entry :=
  LogWarn ("Scan " ++ job_scanId j ++ " timed out after "
           ++ number_to_string (job_timeoutMs j) ++ "ms").

(** The timer has run its callback only if the warning is in the log. *)
Definition warned (j : Job) (s : state) : Prop :=
  timeoutPromise s <> None -> In (timeout_warning j) (log s).

End ScanService.

(* ===================================================================== *)
(** ** worker-scan.service.ts *)
(* ===================================================================== *)

Module WorkerScanService.

Record t : Type := { maxExecutionTime : number }.

(** [constructor(private configService: ConfigService)] *)
Definition constructor (configService : ConfigService) : t * list log_entry :=
  let m := or_else (configService "SCAN_MAX_EXECUTION_TIME_MS") (Num 30000) in
  ({| maxExecutionTime := m |},
   [LogInfo ("Worker scan service initialized with max execution time: "
             ++ number_to_string m ++ "ms")]).

Definition getMaxExecutionTime (this : t) : number := maxExecutionTime this.

(** Lines 35-36 of [executeScanInWorker]. *)
Definition job (this : t) (options : option ScanOptions) (generated : string) : Job :=
  {| job_timeoutMs := or_else (options_timeoutMs options) (maxExecutionTime this);
     job_scanId := or_else (options_scanId options) generated |}.

(** What the worker's [postMessage] delivers: [ScanResult | ScanError]. *)
Inductive message_data : Type :=
| ResultData (result : ScanResult)
| ErrorData (error : ScanError).

(** What the event loop can deliver to one [executeScanInWorker] call: the
    timer, or one of the worker's ['message'], ['error'] and ['exit']
    events.  The ['error'] event carries an [Error]. *)
Inductive event : Type :=
| TimerFired
| OnMessage (result : message_data)
| OnError (error_message : string) (error_props : list (string * value))
| OnExit (exit_code : Z).

(** What the handlers do to the outside, in the order they do it. *)
Inductive effect : Type :=
| Terminate
| ClearTimeout
| Log (entry : log_entry)
| Resolve (result : ScanResult)
| Reject (error : ScanError).

Record state : Type := {
  isResolved : bool;
  timer_pending : bool;
  effects : list effect
}.

(** Lines 35-55: the worker is created and the timer set. *)
Definition start (j : Job) : state :=
  {| isResolved := false;
     timer_pending := true;
     effects := [Log (LogInfo ("Starting worker scan " ++ job_scanId j
                              ++ " with timeout: "
                              ++ number_to_string (job_timeoutMs j) ++ "ms"))] |}.

(** The object built by the [setTimeout] callback (lines 61-66). *)
Definition timeoutError (j : Job) : ScanError :=
  {| code := SCAN_TIMEOUT;
     message := "Worker scan exceeded maximum execution time of "
                ++ number_to_string (job_timeoutMs j) ++ "ms";
     scanId := Some (job_scanId j);
     timeoutMs := Some (job_timeoutMs j);
     details := None |}.

(** The [setTimeout] callback (lines 58-69). *)
Definition on_timeout (j : Job) (s : state) : state :=
  if negb (isResolved s) then
    {| isResolved := true;
       timer_pending := timer_pending s;
       effects := effects s ++
         [Terminate;
          Log (LogWarn ("Worker scan " ++ job_scanId j ++ " timed out after "
                        ++ number_to_string (job_timeoutMs j) ++ "ms"));
          Reject (timeoutError j)] |}
  else s.

(** [result.code] with ['code' in result] in front of it: a [ScanResult] has
    no such property, a [ScanError] always has one. *)
Definition code_of (result : message_data) : option string :=
  match result with
  | ResultData _ => None
  | ErrorData e => Some (code_string (code e))
  end.

(** The ['message'] handler (lines 73-88).  The two inner [match] are the
    casts [result as ScanError] and [result as ScanResult]; [code_of_spec]
    below shows that each is applied to a value of its type. *)
Definition on_message (j : Job) (s : state) (result : message_data) : state :=
  if negb (isResolved s) then
    {| isResolved := true;
       timer_pending := false;
       effects := effects s ++ ClearTimeout ::
         if to_boolean (code_of result) then
           Log (LogError ("Worker scan " ++ job_scanId j ++ " failed:")) ::
           match result with
           | ErrorData e => [Reject e]
           | ResultData _ => []
           end
         else
           Log (LogInfo ("Worker scan " ++ job_scanId j
                         ++ " completed successfully")) ::
           match result with
           | ResultData r => [Resolve r]
           | ErrorData _ => []
           end |}
  else s.

(** The ['error'] handler (lines 91-103). *)
Definition on_error (j : Job) (s : state)
    (error_message : string) (error_props : list (string * value)) : state :=
  if negb (isResolved s) then
    {| isResolved := true;
       timer_pending := false;
       effects := effects s ++
         [ClearTimeout;
          Log (LogError ("Worker scan " ++ job_scanId j ++ " encountered an error:"));
          Reject {| code := SCAN_ERROR;
                    message := error_message;
                    scanId := Some (job_scanId j);
                    timeoutMs := None;
                    details := Some (JError error_message error_props) |}] |}
  else s.

(** The ['exit'] handler (lines 106-117). *)
Definition on_exit (j : Job) (s : state) (exit_code : Z) : state :=
  if negb (isResolved s) && negb (exit_code =? 0) then
    {| isResolved := true;
       timer_pending := false;
       effects := effects s ++
         [ClearTimeout;
          Log (LogError ("Worker scan " ++ job_scanId j ++ " exited with code "
                         ++ number_to_string (Num exit_code)));
          Reject {| code := SCAN_ERROR;
                    message := "Worker exited unexpectedly with code "
                               ++ number_to_string (Num exit_code);
                    scanId := Some (job_scanId j);
                    timeoutMs := None;
                    details := None |}] |}
  else s.

(** The event loop runs the handler of the event; a timer that was cleared
    or has fired does not run its callback. *)
Definition step (j : Job) (s : state) (ev : event) : state :=
  match ev with
  | TimerFired =>
      if timer_pending s then
        on_timeout j {| isResolved := isResolved s;
                        timer_pending := false;
                        effects := effects s |}
      else s
  | OnMessage result => on_message j s result
  | OnError m props => on_error j s m props
  | OnExit c => on_exit j s c
  end.

Definition run (j : Job) (events : list event) : state :=
  fold_left (step j) events (start j).

(** The calls of [resolve] and [reject] among the effects, in order. *)
Fixpoint settle_calls (es : list effect) : list settlement :=
  match es with
  | [] => []
  | Resolve r :: rest => Fulfilled r :: settle_calls rest
  | Reject e :: rest => Rejected (ScanError_object e) :: settle_calls rest
  | _ :: rest => settle_calls rest
  end.

(** The promise returned to the caller: the first call settles it. *)
Definition promise (s : state) : option settlement :=
  fold_left settle (settle_calls (effects s)) None.

(** [executeScanInWorker(contractCode, options)] on a service built from
    [configService], under the events the event loop delivers. *)
Definition executeScanInWorker (configService : ConfigService)
    (options : option ScanOptions) (generated : string)
    (events : list event) : state :=
  run (job (fst (constructor configService)) options generated) events.

(** The four signals that race for the job: a message, an error, an exit
    with a non-zero code, and the timer. *)
Definition competes (ev : event) : bool :=
  match ev with
  | OnExit c => negb (c =? 0)
  | _ => true
  end.

(** No signal of [events] competes: they are all exits with code [0]. *)
Definition quiet (events : list event) : bool :=
  forallb (fun ev => negb (competes ev)) events.

(** [generateScanId()] (lines 124-126). *)
Definition generateScanId (now : number) (random : string) : string :=
  "worker_scan_" ++ number_to_string now ++ "_" ++ random.

(** How often the handlers called [worker.terminate()] and
    [clearTimeout(timeout)]. *)
Fixpoint terminations (es : list effect) : nat :=
  match es with
  | [] => 0
  | Terminate :: rest => S (terminations rest)
  | _ :: rest => terminations rest
  end.

Fixpoint timer_clears (es : list effect) : nat :=
  match es with
  | [] => 0
  | ClearTimeout :: rest => S (timer_clears rest)
  | _ :: rest => timer_clears rest
  end.

Definition is_timer (ev : event) : bool :=
  match ev with
  | TimerFired => true
  | _ => false
  end.

(** The flag, the timer and the calls of [resolve] and [reject] agree. *)
Definition consistent (s : state) : Prop :=
  timer_pending s = negb (isResolved s)
  /\ List.length (settle_calls (effects s))
     = if isResolved s then 1%nat else 0%nat.

End WorkerScanService.

(* ===================================================================== *)
(** ** workers/scan.worker.ts *)
(* ===================================================================== *)

Module ScanWorker.

Import WorkerScanService.

Record WorkerData : Type := {
  contractCode : string;
  data_scanId : string
}.

(** A computation inside the worker either returns or throws, and may have
    posted messages to the parent on the way. *)
Inductive completion (A : Type) : Type :=
| Returns (a : A)
| Throws (error : value).
Arguments Returns {A} a.
Arguments Throws {A} error.

Definition M (A : Type) : Type :=
  list message_data -> completion A * list message_data.

Definition ret {A} (a : A) : M A := fun posted => (Returns a, posted).

Definition throw {A} (error : value) : M A := fun posted => (Throws error, posted).

Definition bind {A B} (m : M A) (k : A -> M B) : M B :=
  fun posted =>
    match m posted with
    | (Returns a, posted') => k a posted'
    | (Throws error, posted') => (Throws error, posted')
    end.

Definition try_catch {A} (body : M A) (handler : value -> M A) : M A :=
  fun posted =>
    match body posted with
    | (Returns a, posted') => (Returns a, posted')
    | (Throws error, posted') => handler error posted'
    end.

Notation "m ;; k" := (bind m (fun _ => k)) (at level 61, right associativity).

(** The exception of [postMessage] for a value that cannot be cloned. *)
Definition DataCloneError : value :=
  JError "The object could not be cloned." [].

(** The structured clone of a message: a result holds only texts and
    numbers; of an error the [details] are what needs cloning. *)
Definition clone_data (data : message_data) : option message_data :=
  match data with
  | ResultData r => Some (ResultData r)
  | ErrorData e =>
      match details e with
      | None => Some (ErrorData e)
      | Some v =>
          match structured_clone v with
          | Some v' =>
              Some (ErrorData {| code := code e;
                                 message := message e;
                                 scanId := scanId e;
                                 timeoutMs := timeoutMs e;
                                 details := Some v' |})
          | None => None
          end
      end
  end.

(** [parentPort.postMessage(data)]: the parent receives a structured clone
    of [data]. *)
Definition postMessage (data : message_data) : M unit :=
  fun posted =>
    match clone_data data with
    | Some data' => (Returns tt, (posted ++ [data'])%list)
    | None => (Throws DataCloneError, posted)
    end.

Section Script.

(** [workerData], whether [parentPort] is set, and [Date.now()]. *)
Variable workerData : WorkerData.
Variable parentPort : bool.
Variable now : number.

(** The analysis itself.  The script holds a placeholder for it (line 26),
    [placeholder] below. *)
Variable analysis : M unit.

(** The object built on lines 28-33. *)
Definition result : ScanResult :=
  {| result_scanId := data_scanId workerData;
     status := status_completed;
     findings := [];
     executionTime := now;
     metadata := None |}.

(** The object built on lines 38-43. *)
Definition errorResult (error : value) : ScanError :=
  {| code := SCAN_ERROR;
     message := match error with
                | JError m _ => m
                | _ => "Unknown error in worker"
                end;
     scanId := Some (data_scanId workerData);
     timeoutMs := None;
     details := Some error |}.

(** The object built on lines 53-57. *)
Definition fatalErrorResult (error : value) : ScanError :=
  {| code := SCAN_ERROR;
     message := match error with
                | JError m _ => m
                | _ => "Fatal error in worker"
                end;
     scanId := None;
     timeoutMs := None;
     details := Some error |}.

(** [async function performScan()] (lines 15-49) *)
Definition performScan : M unit :=
  try_catch
    ((if negb parentPort
      then throw (JError "Worker must be run in a worker thread context" [])
      else ret tt) ;;
     analysis ;;
     postMessage (ResultData result))
    (fun error =>
       if parentPort then postMessage (ErrorData (errorResult error))
       else ret tt).

(** [performScan().catch(...)] (lines 52-62) *)
Definition main : M unit :=
  try_catch performScan
    (fun error =>
       if parentPort then postMessage (ErrorData (fatalErrorResult error))
       else ret tt).

(** The messages the parent receives from one run of the script. *)
Definition posted : list message_data := snd (main []).

End Script.

(** [await new Promise((resolve) => setTimeout(resolve, 100))] *)
Definition placeholder : M unit := ret tt.

(** An analysis that only returns or only throws. *)
Inductive behaviour : Type :=
| Completes
| Fails (error : value).

Definition analysis_of (b : behaviour) : M unit :=
  match b with
  | Completes => ret tt
  | Fails error => throw error
  end.

End ScanWorker.

(* ===================================================================== *)
(** ** The coordinator and its worker *)
(* ===================================================================== *)

Module Isolated.

Import WorkerScanService.

(** [workerData: { contractCode, scanId }] (line 50 of
    [worker-scan.service.ts]). *)
Definition workerData (contractCode : string) (j : Job) : ScanWorker.WorkerData :=
  {| ScanWorker.contractCode := contractCode;
     ScanWorker.data_scanId := job_scanId j |}.

(** The ['message'] events that one run of the script, started by the
    coordinator for job [j], raises in the parent. *)
Definition messages (contractCode : string) (j : Job) (now : number)
    (analysis : ScanWorker.M unit) : list event :=
  map OnMessage (ScanWorker.posted (workerData contractCode j) true now analysis).

End Isolated.

(* ===================================================================== *)
(** ** scan.controller.ts *)
(* ===================================================================== *)

Module ScanController.

(** The body of [POST /scan].  [contractCode] is whatever the client sent,
    [undefined] when it sent nothing. *)
Record ScanRequestDto : Type := {
  request_contractCode : value;
  request_timeoutMs : option number;
  request_options : option (list (string * value))
}.

(** What [scanContract] can throw. *)
Inductive thrown : Type :=
| BadRequestException (response : value)
| RequestTimeoutException (response : value)
| Plain (v : value).

Inductive completion : Type :=
| Returned (result : ScanResult)
| Threw (error : thrown).

(** What the [try] block can throw into the [catch] clause: one of its own
    [BadRequestException], or the rejection of [executeScan]. *)
Inductive caught : Type :=
| CaughtBadRequest (response : value)
| CaughtRejection (error : value).

(** [typeof v === 'string'] *)
Definition typeof_string (v : value) : bool :=
  match v with
  | JStr _ => true
  | _ => false
  end.

(** [v.length] for a string [v] *)
Definition length_of (v : value) : Z :=
  match v with
  | JStr s => Z.of_nat (String.length s)
  | _ => 0
  end.

(** Lines 32-45: the two checks on [contractCode]. *)
Definition validate (scanRequest : ScanRequestDto) : option caught :=
  let contractCode := request_contractCode scanRequest in
  if negb (to_boolean contractCode) || negb (typeof_string contractCode) then
    Some (CaughtBadRequest
            (JObject [("code", JStr "INVALID_INPUT");
                      ("message", JStr "contractCode is required and must be a string")]))
  else if length_of contractCode =? 0 then
    Some (CaughtBadRequest
            (JObject [("code", JStr "INVALID_INPUT");
                      ("message", JStr "contractCode cannot be empty")]))
  else None.

Section Controller.

(** [ToString], which the template literal of line 72 applies to
    [error.message]. *)
Variable ToString : value -> string.

(** The [catch] clause (lines 60-88).  A [BadRequestException] has no
    property [code], so the first test fails for it. *)
Definition handle (error : caught) : thrown :=
  match error with
  | CaughtBadRequest response => BadRequestException response
  | CaughtRejection e =>
      if ScanService.is_timeout_error e then
        RequestTimeoutException
          (JObject [("error", e);
                    ("message", JStr ("Scan exceeded maximum execution time. "
                                      ++ ToString (get e "message")))])
      else
        Plain (JObject
                 [("error",
                   ScanError_object
                     {| code := SCAN_ERROR;
                        message := match e with
                                   | JError m _ => m
                                   | _ => "Unknown error occurred"
                                   end;
                        scanId := None;
                        timeoutMs := None;
                        details := None |})])
  end.

(** [scanContract(scanRequest)] on a controller whose service is [service],
    under the signals that the event loop delivers to the call of
    [executeScan].  The result is [None] while [executeScan] is awaited.
    The second component is what the controller itself logs. *)
Definition scanContract (service : ScanService.t) (scanRequest : ScanRequestDto)
    (generated : string) (signals : list ScanService.signal)
  : option completion * list log_entry :=
  match validate scanRequest with
  | Some error => (Some (Threw (handle error)), [LogError "Scan request failed:"])
  | None =>
      let received :=
        LogInfo ("Received scan request (code length: "
                 ++ number_to_string (Num (length_of (request_contractCode scanRequest)))
                 ++ " chars)") in
      let j := ScanService.job service
                 (Some {| opt_timeoutMs := request_timeoutMs scanRequest;
                          opt_scanId := None |})
                 generated in
      match ScanService.returned (ScanService.run j signals) with
      | [] => (None, [received])
      | Fulfilled result :: _ => (Some (Returned result), [received])
      | Rejected error :: _ =>
          (Some (Threw (handle (CaughtRejection error))),
           [received; LogError "Scan request failed:"])
      end
  end.

End Controller.

End ScanController.

(* ===================================================================== *)
(** ** Deadline policy *)
(* ===================================================================== *)

(** The two [||] of the coordinators put together: line 29 of
    [scan.service.ts] (35 of [worker-scan.service.ts]) applied to the result
    of line 13 (19). *)
Definition resolve (perJobOverride defaultFromConfig : option number)
    (hardcodedFallback : number) : number :=
  or_else perJobOverride (or_else defaultFromConfig hardcodedFallback).

(** A configuration that holds only the scan setting. *)
Definition config_with (setting : option number) : ConfigService :=
  fun key => if String.eqb key "SCAN_MAX_EXECUTION_TIME_MS" then setting else None.

(** ** Timers *)




(** ** Sample inputs *)

Definition sample_job : Job :=
  {| job_timeoutMs := Num 1000; job_scanId := "scan_1700000000000_k3x9q2m1a" |}.

(** The result the placeholder scan produces for [sample_job]. *)
Definition sample_result : ScanResult :=
  ScanService.performScan (job_scanId sample_job) (Num 1700000000100).

Definition sample_options : option ScanOptions :=
  Some {| opt_timeoutMs := Some (Num 500); opt_scanId := None |}.

(* ===================================================================== *)
(** * Properties *)
(* ===================================================================== *)

(** ** Deadline policy *)

Lemma or_else_truthy {A} `{ToBoolean A} (a : option A) (b : A) (x : A) :
  a = Some x -> to_boolean x = true -> or_else a b = x.
Proof. intros -> Hx. unfold or_else. now rewrite Hx. Qed.

Lemma or_else_falsy {A} `{ToBoolean A} (a : option A) (b : A) :
  to_boolean a = false -> or_else a b = b.
Proof.
  destruct a as [x|]; [|reflexivity].
  intros Hx. change (to_boolean x = false) in Hx.
  unfold or_else. now rewrite Hx.
Qed.

Lemma number_truthy (z : Z) : z <> 0 -> to_boolean (Num z) = true.
Proof.
  intros Hz. unfold to_boolean, number_ToBoolean.
  apply negb_true_iff, Z.eqb_neq, Hz.
Qed.

(** The falsy optional numbers are exactly [undefined], [0] and [NaN]. *)
Lemma optional_number_falsy (o : option number) :
  to_boolean o = false <-> o = None \/ o = Some (Num 0) \/ o = Some NaN.
Proof.
  split.
  - destruct o as [[z|]|]; cbn; auto.
    unfold to_boolean, optional_ToBoolean, to_boolean, number_ToBoolean.
    intros Hz. apply negb_false_iff, Z.eqb_eq in Hz. subst z. auto.
  - intros [-> | [-> | ->]]; reflexivity.
Qed.

(** What the two coordinators take as the timeout of a job is [resolve] of
    the per-job option, the configured setting and 30000. *)
Lemma inline_job_timeout configService options generated :
  job_timeoutMs
    (ScanService.job (fst (ScanService.constructor configService)) options generated)
  = resolve (options_timeoutMs options)
            (configService "SCAN_MAX_EXECUTION_TIME_MS") (Num 30000).
Proof. reflexivity. Qed.

Lemma worker_job_timeout configService options generated :
  job_timeoutMs
    (WorkerScanService.job (fst (WorkerScanService.constructor configService))
       options generated)
  = resolve (options_timeoutMs options)
            (configService "SCAN_MAX_EXECUTION_TIME_MS") (Num 30000).
Proof. reflexivity. Qed.

(** The effective timeout of a job is never [0] and never [NaN]. *)
Lemma resolve_truthy o d :
  to_boolean (resolve o d (Num 30000)) = true.
Proof.
  unfold resolve, or_else.
  destruct o as [x|].
  - destruct (to_boolean x) eqn:Hx; [exact Hx|].
    destruct d as [y|]; [|reflexivity].
    destruct (to_boolean y) eqn:Hy; [exact Hy | reflexivity].
  - destruct d as [y|]; [|reflexivity].
    destruct (to_boolean y) eqn:Hy; [exact Hy | reflexivity].
Qed.

(** C1, as the claim states it, fails: a negative per-job override is not
    ignored.  [resolve(-1, 15000, 30000)] is [-1], in both coordinators. *)
Lemma C1_negative_override_is_used :
  resolve (Some (Num (-1))) (Some (Num 15000)) (Num 30000) = Num (-1)
  /\ resolve (Some (Num (-1))) (Some (Num 15000)) (Num 30000) <> Num 15000
  /\ job_timeoutMs
       (ScanService.job
          (fst (ScanService.constructor (config_with (Some (Num 15000)))))
          (Some {| opt_timeoutMs := Some (Num (-1)); opt_scanId := None |})
          "scan_1_a") = Num (-1)
  /\ job_timeoutMs
       (WorkerScanService.job
          (fst (WorkerScanService.constructor (config_with (Some (Num 15000)))))
          (Some {| opt_timeoutMs := Some (Num (-1)); opt_scanId := None |})
          "worker_scan_1_a") = Num (-1).
Proof. repeat split; try reflexivity. discriminate. Qed.

(** C1 (amended): the deadline policy resolves the effective timeout by
    precedence.  A per-job override that is a number other than [0] and [NaN]
    wins, negative ones included; an override that is absent, [0] or [NaN]
    falls through to the configured default, which is taken on the same
    condition; otherwise the result is the fallback.  Both coordinators
    compute the timeout of a job this way, with 30000 as the fallback.  So
    [resolve(500, 30000, 30000) = 500],
    [resolve(undefined, 15000, 30000) = 15000],
    [resolve(undefined, undefined, 30000) = 30000] and
    [resolve(-1, 15000, 30000) = -1]. *)
Theorem C1_deadline_policy_precedence :
  (forall configService options generated,
     job_timeoutMs
       (ScanService.job (fst (ScanService.constructor configService))
          options generated)
     = resolve (options_timeoutMs options)
               (configService "SCAN_MAX_EXECUTION_TIME_MS") (Num 30000)
     /\ job_timeoutMs
          (WorkerScanService.job (fst (WorkerScanService.constructor configService))
             options generated)
        = resolve (options_timeoutMs options)
                  (configService "SCAN_MAX_EXECUTION_TIME_MS") (Num 30000))
  /\ (forall z d f, z <> 0 -> resolve (Some (Num z)) d f = Num z)
  /\ (forall o z f,
        o = None \/ o = Some (Num 0) \/ o = Some NaN ->
        z <> 0 -> resolve o (Some (Num z)) f = Num z)
  /\ (forall o d f,
        o = None \/ o = Some (Num 0) \/ o = Some NaN ->
        d = None \/ d = Some (Num 0) \/ d = Some NaN ->
        resolve o d f = f)
  /\ resolve (Some (Num 500)) (Some (Num 30000)) (Num 30000) = Num 500
  /\ resolve None (Some (Num 15000)) (Num 30000) = Num 15000
  /\ resolve None None (Num 30000) = Num 30000
  /\ resolve (Some (Num (-1))) (Some (Num 15000)) (Num 30000) = Num (-1).
Proof.
  repeat split; try reflexivity.
  - intros z d f Hz. unfold resolve.
    apply or_else_truthy; [reflexivity | now apply number_truthy].
  - intros o z f Ho Hz. unfold resolve.
    rewrite (or_else_falsy o) by now apply optional_number_falsy.
    apply or_else_truthy; [reflexivity | now apply number_truthy].
  - intros o d f Ho Hd. unfold resolve.
    rewrite (or_else_falsy o) by now apply optional_number_falsy.
    apply or_else_falsy. now apply optional_number_falsy.
Qed.

Lemma C1_deadline_policy_precedence_witness :
  resolve (Some (Num (-1))) None (Num 30000) = Num (-1)
  /\ resolve (Some (Num 0)) (Some (Num 15000)) (Num 30000) = Num 15000
  /\ resolve (Some NaN) (Some (Num 0)) (Num 30000) = Num 30000.
Proof.
  destruct C1_deadline_policy_precedence as (_ & Hover & Hdefault & Hfallback & _).
  split; [|split].
  - apply Hover. lia.
  - apply Hdefault; [right; left; reflexivity | lia].
  - apply Hfallback; [right; right; reflexivity | right; left; reflexivity].
Defined.

(** ** Configured default *)

(** C6, as the claim states it, fails: a negative setting is not replaced by
    the fallback. *)
Lemma C6_negative_setting_is_used :
  ScanService.maxExecutionTime
    (fst (ScanService.constructor (config_with (Some (Num (-5)))))) = Num (-5)
  /\ WorkerScanService.maxExecutionTime
       (fst (WorkerScanService.constructor (config_with (Some (Num (-5))))))
     = Num (-5)
  /\ Num (-5) <> Num 30000.
Proof. repeat split. discriminate. Qed.

(** C6 (amended): each coordinator takes its default timeout, when it is
    constructed, from the one setting [SCAN_MAX_EXECUTION_TIME_MS] and from
    nothing else in the configuration.  When the setting is absent, [0] or
    [NaN] the default is the constant 30000; any other number is used as it
    is, a negative one included. *)
Theorem C6_default_timeout_from_configuration :
  (forall c1 c2 : ConfigService,
     c1 "SCAN_MAX_EXECUTION_TIME_MS" = c2 "SCAN_MAX_EXECUTION_TIME_MS" ->
     ScanService.constructor c1 = ScanService.constructor c2
     /\ WorkerScanService.constructor c1 = WorkerScanService.constructor c2)
  /\ (forall configService : ConfigService,
        let setting := configService "SCAN_MAX_EXECUTION_TIME_MS" in
        setting = None \/ setting = Some (Num 0) \/ setting = Some NaN ->
        ScanService.getMaxExecutionTime
          (fst (ScanService.constructor configService)) = Num 30000
        /\ WorkerScanService.getMaxExecutionTime
             (fst (WorkerScanService.constructor configService)) = Num 30000)
  /\ (forall (configService : ConfigService) z,
        configService "SCAN_MAX_EXECUTION_TIME_MS" = Some (Num z) ->
        z <> 0 ->
        ScanService.getMaxExecutionTime
          (fst (ScanService.constructor configService)) = Num z
        /\ WorkerScanService.getMaxExecutionTime
             (fst (WorkerScanService.constructor configService)) = Num z).
Proof.
  split; [|split].
  - intros c1 c2 Heq.
    unfold ScanService.constructor, WorkerScanService.constructor.
    now rewrite Heq.
  - intros configService setting Hs.
    apply optional_number_falsy in Hs.
    unfold ScanService.getMaxExecutionTime, WorkerScanService.getMaxExecutionTime.
    cbn. fold setting. now rewrite (or_else_falsy setting).
  - intros configService z Hs Hz.
    unfold ScanService.getMaxExecutionTime, WorkerScanService.getMaxExecutionTime.
    cbn. rewrite (or_else_truthy _ _ (Num z) Hs (number_truthy z Hz)). split; reflexivity.
Qed.

Lemma C6_default_timeout_from_configuration_witness :
  ScanService.getMaxExecutionTime
    (fst (ScanService.constructor (config_with (Some (Num 0))))) = Num 30000
  /\ WorkerScanService.getMaxExecutionTime
       (fst (WorkerScanService.constructor (config_with (Some (Num 1000)))))
     = Num 1000.
Proof.
  destruct C6_default_timeout_from_configuration as (_ & Hfallback & Hused).
  split.
  - apply (Hfallback (config_with (Some (Num 0)))).
    right; left; reflexivity.
  - apply (Hused (config_with (Some (Num 1000))) 1000); [reflexivity | lia].
Defined.

(** ** The inline coordinator: first signal wins *)

Section Inline.

Import ScanService.

Variable j : Job.

Lemma race_settles_once s by_ :
  race s <> None ->
  race_settles j s by_ = s.
Proof.
  unfold race_settles. destruct (race s); [reflexivity | congruence].
Qed.

(** Once the race is over no signal changes what the caller has seen. *)
Lemma inline_settled_stable s sig :
  race s <> None ->
  race (step j s sig) <> None /\ returned (step j s sig) = returned s.
Proof.
  intros Hr.
  destruct sig; cbn [step]; unfold scan_settles, timer_fires.
  - destruct (scanPromise s); [auto|].
    rewrite race_settles_once by exact Hr. auto.
  - destruct (scanPromise s); [auto|].
    rewrite race_settles_once by exact Hr. auto.
  - destruct (timeoutPromise s); [auto|].
    rewrite race_settles_once by exact Hr. auto.
Qed.

Lemma inline_settled_run signals : forall s,
  race s <> None ->
  returned (fold_left (step j) signals s) = returned s.
Proof.
  induction signals as [|sig rest IH]; intros s Hr; [reflexivity|].
  cbn [fold_left].
  destruct (inline_settled_stable s sig Hr) as [Hr' Hret].
  now rewrite IH.
Qed.

(** Any first signal ends the race, and the body of [executeScan] completes
    with what [after_race] makes of it. *)
Lemma inline_first_signal sig :
  race (step j (start j) sig) <> None
  /\ returned (step j (start j) sig)
     = [snd (after_race j (signal_settlement j sig))].
Proof.
  destruct sig; split; try discriminate; reflexivity.
Qed.

Lemma inline_run_first_signal sig rest :
  returned (run j (sig :: rest)) = [snd (after_race j (signal_settlement j sig))].
Proof.
  unfold run. cbn [fold_left].
  destruct (inline_first_signal sig) as [Hr Hret].
  now rewrite inline_settled_run.
Qed.

End Inline.

(** ** The worker coordinator: first competing signal wins *)

Section Worker.

Import WorkerScanService.

Variable j : Job.

Lemma settle_calls_app es1 es2 :
  settle_calls (es1 ++ es2) = (settle_calls es1 ++ settle_calls es2)%list.
Proof.
  induction es1 as [|e es1 IH]; [reflexivity|].
  destruct e; cbn [settle_calls app]; now rewrite ?IH.
Qed.

(** An exit with code [0] runs no branch of its handler. *)
Lemma worker_ignored s ev :
  competes ev = false -> step j s ev = s.
Proof.
  destruct ev; cbn [competes]; try discriminate.
  intros Hc. apply negb_false_iff in Hc.
  cbn [step]. unfold on_exit. rewrite Hc.
  now rewrite andb_false_r.
Qed.

(** Behind the [isResolved] flag no handler has any effect. *)
Lemma worker_resolved_stable s ev :
  isResolved s = true ->
  isResolved (step j s ev) = true /\ effects (step j s ev) = effects s.
Proof.
  intros Hr.
  destruct ev; cbn [step];
    unfold on_timeout, on_message, on_error, on_exit.
  - destruct (timer_pending s); cbn [isResolved effects]; rewrite Hr; auto.
  - rewrite Hr. auto.
  - rewrite Hr. auto.
  - rewrite Hr. auto.
Qed.

Lemma worker_resolved_run events : forall s,
  isResolved s = true ->
  isResolved (fold_left (step j) events s) = true
  /\ effects (fold_left (step j) events s) = effects s.
Proof.
  induction events as [|ev rest IH]; intros s Hr; [auto|].
  cbn [fold_left].
  destruct (worker_resolved_stable s ev Hr) as [Hr' He].
  destruct (IH _ Hr') as [Hr'' He'].
  split; [exact Hr'' | congruence].
Qed.

(** While the job is unresolved and its timer pending, a competing signal
    sets the flag. *)
Lemma worker_competing_resolves s ev :
  isResolved s = false -> timer_pending s = true ->
  competes ev = true ->
  isResolved (step j s ev) = true.
Proof.
  intros Hr Ht Hc.
  destruct ev; cbn [step];
    unfold on_timeout, on_message, on_error, on_exit.
  - rewrite Ht. cbn [isResolved]. rewrite Hr. reflexivity.
  - rewrite Hr. reflexivity.
  - rewrite Hr. reflexivity.
  - cbn [competes] in Hc. rewrite Hr, Hc. reflexivity.
Qed.

Lemma worker_quiet_run events :
  quiet events = true ->
  run j events = start j.
Proof.
  unfold run, quiet. generalize (start j).
  induction events as [|ev rest IH]; intros s Hq; [reflexivity|].
  cbn [forallb] in Hq. apply andb_true_iff in Hq as [Hev Hrest].
  apply negb_true_iff in Hev.
  cbn [fold_left]. rewrite (worker_ignored s ev Hev). now apply IH.
Qed.

(** The effects of a run are those of its first competing signal alone. *)
Lemma worker_run_first_competing pre ev rest :
  quiet pre = true ->
  competes ev = true ->
  effects (run j (pre ++ ev :: rest)) = effects (run j [ev]).
Proof.
  intros Hq Hc.
  unfold run at 1. rewrite fold_left_app. fold (run j pre).
  rewrite (worker_quiet_run pre Hq).
  cbn [fold_left run].
  apply worker_resolved_run.
  now apply worker_competing_resolves.
Qed.

(** The test of line 78 tells the two kinds of message apart. *)
Lemma code_of_spec result :
  to_boolean (code_of result) = true <-> exists e, result = ErrorData e.
Proof.
  destruct result as [r|e].
  - split; [discriminate | intros [e He]; discriminate].
  - split; [eauto|]. intros _. now destruct e as [[] ? ? ? ?].
Qed.

(** What each competing signal, arriving first, makes of the promise. *)
Lemma worker_first_timer :
  settle_calls (effects (run j [TimerFired]))
  = [Rejected (ScanError_object (timeoutError j))].
Proof. reflexivity. Qed.

Lemma worker_first_result r :
  settle_calls (effects (run j [OnMessage (ResultData r)])) = [Fulfilled r].
Proof. reflexivity. Qed.

Lemma worker_first_error_message e :
  settle_calls (effects (run j [OnMessage (ErrorData e)]))
  = [Rejected (ScanError_object e)].
Proof. destruct e as [[] ? ? ? ?]; reflexivity. Qed.

Lemma worker_first_error m props :
  settle_calls (effects (run j [OnError m props]))
  = [Rejected (ScanError_object
       {| code := SCAN_ERROR;
          message := m;
          scanId := Some (job_scanId j);
          timeoutMs := None;
          details := Some (JError m props) |})].
Proof. reflexivity. Qed.

Lemma worker_first_exit c :
  c <> 0 ->
  settle_calls (effects (run j [OnExit c]))
  = [Rejected (ScanError_object
       {| code := SCAN_ERROR;
          message := "Worker exited unexpectedly with code "
                     ++ number_to_string (Num c);
          scanId := Some (job_scanId j);
          timeoutMs := None;
          details := None |})].
Proof.
  intros Hc. apply Z.eqb_neq in Hc.
  unfold run. cbn [fold_left step]. unfold on_exit.
  cbn [start isResolved negb andb]. rewrite Hc. reflexivity.
Qed.

Lemma worker_first_competing_settles ev :
  competes ev = true ->
  exists outcome, settle_calls (effects (run j [ev])) = [outcome].
Proof.
  intros Hc. destruct ev as [|[r|e]|m props|c].
  - eexists. apply worker_first_timer.
  - eexists. apply worker_first_result.
  - eexists. apply worker_first_error_message.
  - eexists. apply worker_first_error.
  - eexists. apply worker_first_exit.
    cbn [competes] in Hc. apply negb_true_iff in Hc. now apply Z.eqb_neq.
Qed.

(** Every run is quiet, or has a first competing signal. *)
Lemma worker_run_cases events :
  quiet events = true
  \/ exists pre ev rest,
       events = (pre ++ ev :: rest)%list
       /\ quiet pre = true /\ competes ev = true.
Proof.
  induction events as [|ev rest IH]; [left; reflexivity|].
  destruct (competes ev) eqn:Hc.
  - right. exists [], ev, rest. auto.
  - destruct IH as [Hq | (pre & ev' & rest' & -> & Hq & Hc')].
    + left. unfold quiet in *. cbn [forallb]. now rewrite Hc, Hq.
    + right. exists (ev :: pre), ev', rest'. repeat split; [|exact Hc'].
      unfold quiet in *. cbn [forallb]. now rewrite Hc, Hq.
Qed.

Lemma promise_single s outcome :
  settle_calls (effects s) = [outcome] -> promise s = Some outcome.
Proof. unfold promise. now intros ->. Qed.

End Worker.

(** ** Exactly one outcome *)

(** C2: every job, inline or in a worker, gives its caller exactly one
    outcome, however many signals the event loop delivers.  The first
    competing signal (result, error, exit with a non-zero code, timer) is
    not dropped: it settles the job with the outcome it would produce on its
    own.  Every signal after it leaves that outcome as it is and adds none.
    At no point have two outcomes been produced, and once the timer has
    fired there is exactly one. *)
Theorem C2_exactly_one_outcome (j : Job) :
  (forall sig rest, exists outcome,
      ScanService.returned (ScanService.run j [sig]) = [outcome]
      /\ ScanService.returned (ScanService.run j (sig :: rest)) = [outcome])
  /\ (forall signals,
        List.length (ScanService.returned
                  (ScanService.run j (signals ++ [ScanService.TimerFired]))) = 1%nat)
  /\ (forall pre ev rest,
        WorkerScanService.quiet pre = true ->
        WorkerScanService.competes ev = true ->
        exists outcome,
          WorkerScanService.settle_calls
            (WorkerScanService.effects (WorkerScanService.run j [ev])) = [outcome]
          /\ WorkerScanService.settle_calls
               (WorkerScanService.effects
                  (WorkerScanService.run j (pre ++ ev :: rest))) = [outcome]
          /\ WorkerScanService.promise
               (WorkerScanService.run j (pre ++ ev :: rest)) = Some outcome)
  /\ (forall events,
        (List.length (WorkerScanService.settle_calls
                   (WorkerScanService.effects
                      (WorkerScanService.run j events))) <= 1)%nat)
  /\ (forall events,
        List.length (WorkerScanService.settle_calls
                  (WorkerScanService.effects
                     (WorkerScanService.run j
                        (events ++ [WorkerScanService.TimerFired])))) = 1%nat).
Proof.
  assert (Hfirst : forall pre ev rest,
    WorkerScanService.quiet pre = true ->
    WorkerScanService.competes ev = true ->
    exists outcome,
      WorkerScanService.settle_calls
        (WorkerScanService.effects (WorkerScanService.run j [ev])) = [outcome]
      /\ WorkerScanService.settle_calls
           (WorkerScanService.effects
              (WorkerScanService.run j (pre ++ ev :: rest))) = [outcome]
      /\ WorkerScanService.promise
           (WorkerScanService.run j (pre ++ ev :: rest)) = Some outcome).
  { intros pre ev rest Hq Hc.
    destruct (worker_first_competing_settles j ev Hc) as [outcome Ho].
    exists outcome.
    assert (Hrun : WorkerScanService.settle_calls
                     (WorkerScanService.effects
                        (WorkerScanService.run j (pre ++ ev :: rest))) = [outcome])
      by now rewrite (worker_run_first_competing j pre ev rest Hq Hc).
    repeat split; [exact Ho | exact Hrun | now apply promise_single]. }
  split; [|split; [|split; [exact Hfirst | split]]].
  - intros sig rest. eexists. split; apply inline_run_first_signal.
  - intros [|sig rest]; cbn [app].
    + now rewrite inline_run_first_signal.
    + now rewrite inline_run_first_signal.
  - intros events.
    destruct (worker_run_cases events) as [Hq | (pre & ev & rest & -> & Hq & Hc)].
    + rewrite (worker_quiet_run j events Hq). cbn. lia.
    + destruct (Hfirst pre ev rest Hq Hc) as (outcome & _ & -> & _). cbn. lia.
  - intros events.
    destruct (worker_run_cases events) as [Hq | (pre & ev & rest & -> & Hq & Hc)].
    + destruct (Hfirst events WorkerScanService.TimerFired [] Hq eq_refl)
        as (outcome & _ & -> & _).
      reflexivity.
    + rewrite <- app_assoc. cbn [app].
      destruct (Hfirst pre ev (rest ++ [WorkerScanService.TimerFired])%list Hq Hc)
        as (outcome & _ & -> & _).
      reflexivity.
Qed.

Lemma C2_exactly_one_outcome_witness :
  exists outcome,
    WorkerScanService.promise
      (WorkerScanService.run sample_job
         ([WorkerScanService.OnExit 0]
          ++ WorkerScanService.OnMessage (WorkerScanService.ResultData sample_result)
          :: [WorkerScanService.TimerFired; WorkerScanService.OnExit 1]))
    = Some outcome.
Proof.
  destruct (C2_exactly_one_outcome sample_job) as (_ & _ & Hfirst & _).
  destruct (Hfirst [WorkerScanService.OnExit 0]
              (WorkerScanService.OnMessage (WorkerScanService.ResultData sample_result))
              [WorkerScanService.TimerFired; WorkerScanService.OnExit 1]
              eq_refl eq_refl) as (outcome & _ & _ & Hp).
  exists outcome. exact Hp.
Defined.

(** ** Timeout outcome *)

Lemma append_empty_r (s : string) : s ++ "" = s.
Proof. induction s as [|c s IH]; cbn; [reflexivity | now rewrite IH]. Qed.

Lemma contains_suffix (pre s : string) : contains (pre ++ s) s.
Proof. exists pre, "". now rewrite append_empty_r. Qed.

(** C3: when the timer is the first signal to compete, the outcome of the
    job is the rejection with a [ScanError] whose [code] is [SCAN_TIMEOUT],
    whose [message] contains the effective timeout in digits followed by
    [ms], whose [scanId] is the id of the job and whose [timeoutMs] is the
    effective timeout, that is [resolve] of the per-job option, the
    configured setting and 30000.  This holds inline and in a worker. *)
Theorem C3_timeout_outcome (configService : ConfigService)
    (options : option ScanOptions) (generated : string) :
  let t := resolve (options_timeoutMs options)
                   (configService "SCAN_MAX_EXECUTION_TIME_MS") (Num 30000) in
  let id := or_else (options_scanId options) generated in
  (forall rest, exists e,
      ScanService.executeScan configService options generated
        (ScanService.TimerFired :: rest) = [Rejected (ScanError_object e)]
      /\ code e = SCAN_TIMEOUT
      /\ contains (message e) (number_to_string t ++ "ms")
      /\ scanId e = Some id
      /\ timeoutMs e = Some t)
  /\ (forall pre rest,
        WorkerScanService.quiet pre = true ->
        exists e,
          WorkerScanService.promise
            (WorkerScanService.executeScanInWorker configService options generated
               (pre ++ WorkerScanService.TimerFired :: rest))
          = Some (Rejected (ScanError_object e))
          /\ code e = SCAN_TIMEOUT
          /\ contains (message e) (number_to_string t ++ "ms")
          /\ scanId e = Some id
          /\ timeoutMs e = Some t).
Proof.
  intros t id. split.
  - intros rest.
    set (j := ScanService.job (fst (ScanService.constructor configService))
                options generated).
    exists (ScanService.timeoutError j).
    unfold ScanService.executeScan. fold j.
    rewrite inline_run_first_signal.
    repeat split.
    cbn [message ScanService.timeoutError].
    apply contains_suffix.
  - intros pre rest Hq.
    set (j := WorkerScanService.job
                (fst (WorkerScanService.constructor configService))
                options generated).
    exists (WorkerScanService.timeoutError j).
    unfold WorkerScanService.executeScanInWorker. fold j.
    repeat split.
    + apply promise_single.
      rewrite (worker_run_first_competing j pre WorkerScanService.TimerFired
                 rest Hq eq_refl).
      apply worker_first_timer.
    + cbn [message WorkerScanService.timeoutError].
      apply contains_suffix.
Qed.

Lemma C3_timeout_outcome_witness :
  exists e,
    WorkerScanService.promise
      (WorkerScanService.executeScanInWorker (config_with (Some (Num 1000)))
         sample_options "worker_scan_1700000000000_k3x9q2m1a"
         ([WorkerScanService.OnExit 0]
          ++ WorkerScanService.TimerFired
          :: [WorkerScanService.OnMessage (WorkerScanService.ResultData sample_result)]))
    = Some (Rejected (ScanError_object e))
    /\ code e = SCAN_TIMEOUT
    /\ contains (message e) "500ms"
    /\ scanId e = Some "worker_scan_1700000000000_k3x9q2m1a"
    /\ timeoutMs e = Some (Num 500).
Proof.
  apply (proj2 (C3_timeout_outcome (config_with (Some (Num 1000))) sample_options
                  "worker_scan_1700000000000_k3x9q2m1a")
           [WorkerScanService.OnExit 0]
           [WorkerScanService.OnMessage (WorkerScanService.ResultData sample_result)]).
  reflexivity.
Defined.

(** ** Work failure in the inline coordinator *)

(** The test of line 60 holds exactly for the values that have a property
    [code] equal to ['SCAN_TIMEOUT']. *)
Lemma is_timeout_error_spec (error : value) :
  ScanService.is_timeout_error error = true
  <-> lookup "code" (properties error) = Some (JStr "SCAN_TIMEOUT").
Proof.
  unfold ScanService.is_timeout_error, has_property, get.
  split.
  - intros H.
    apply andb_true_iff in H as [H Heq].
    apply andb_true_iff in H as [_ Hin].
    destruct (lookup "code" (properties error)) as [v|]; [|discriminate].
    destruct v; try discriminate.
    cbn [strict_eq_string] in Heq. apply String.eqb_eq in Heq. now subst.
  - intros H. rewrite H.
    destruct error; cbn [properties lookup] in H; try discriminate; reflexivity.
Qed.

(** C4, as the claim states it, fails: a failure that is an object but not
    an [Error], here a [ScanError] literal as this code base throws them,
    loses its message. *)
Lemma C4_plain_object_failure_loses_its_message :
  let error := JObject [("code", JStr "INVALID_INPUT");
                        ("message", JStr "contractCode cannot be empty")] in
  get error "message" = JStr "contractCode cannot be empty"
  /\ ScanService.returned
       (ScanService.run sample_job [ScanService.ScanRejected error])
     = [Rejected (ScanError_object
          {| code := SCAN_ERROR;
             message := "Unknown scan error";
             scanId := Some (job_scanId sample_job);
             timeoutMs := None;
             details := None |})]
  /\ "Unknown scan error" <> "contractCode cannot be empty".
Proof. repeat split. discriminate. Qed.

(** C4 (amended): in the inline coordinator, when the scan fails before the
    timer fires, the outcome depends on the thrown value.  A value with a
    [code] property equal to ['SCAN_TIMEOUT'] is passed on unchanged.  Any
    other value gives a [SCAN_ERROR] fault with the id of the job, whose
    message is the message of the value when it is an [Error] and the fixed
    text ['Unknown scan error'] when it is not. *)
Theorem C4_inline_work_failure (j : Job) (error : value) (rest : list ScanService.signal) :
  (lookup "code" (properties error) = Some (JStr "SCAN_TIMEOUT") ->
   ScanService.returned (ScanService.run j (ScanService.ScanRejected error :: rest))
   = [Rejected error])
  /\ (lookup "code" (properties error) <> Some (JStr "SCAN_TIMEOUT") ->
      forall m props, error = JError m props ->
      ScanService.returned (ScanService.run j (ScanService.ScanRejected error :: rest))
      = [Rejected (ScanError_object
           {| code := SCAN_ERROR;
              message := m;
              scanId := Some (job_scanId j);
              timeoutMs := None;
              details := None |})])
  /\ (lookup "code" (properties error) <> Some (JStr "SCAN_TIMEOUT") ->
      instanceof_Error error = false ->
      ScanService.returned (ScanService.run j (ScanService.ScanRejected error :: rest))
      = [Rejected (ScanError_object
           {| code := SCAN_ERROR;
              message := "Unknown scan error";
              scanId := Some (job_scanId j);
              timeoutMs := None;
              details := None |})]).
Proof.
  rewrite inline_run_first_signal.
  cbn [ScanService.signal_settlement ScanService.after_race].
  split; [|split].
  - intros H. apply is_timeout_error_spec in H. now rewrite H.
  - intros H m props ->.
    destruct (ScanService.is_timeout_error (JError m props)) eqn:Ht.
    + now apply is_timeout_error_spec in Ht.
    + reflexivity.
  - intros H Hi.
    destruct (ScanService.is_timeout_error error) eqn:Ht.
    + now apply is_timeout_error_spec in Ht.
    + destruct error; try discriminate; reflexivity.
Qed.

Lemma C4_inline_work_failure_witness :
  ScanService.returned
    (ScanService.run sample_job
       [ScanService.ScanRejected
          (JError "timed out upstream" [("code", JStr "SCAN_TIMEOUT")]);
        ScanService.TimerFired])
  = [Rejected (JError "timed out upstream" [("code", JStr "SCAN_TIMEOUT")])]
  /\ ScanService.returned
       (ScanService.run sample_job
          [ScanService.ScanRejected (JError "parse failure" []);
           ScanService.TimerFired])
     = [Rejected (ScanError_object
          {| code := SCAN_ERROR;
             message := "parse failure";
             scanId := Some (job_scanId sample_job);
             timeoutMs := None;
             details := None |})]
  /\ ScanService.returned
       (ScanService.run sample_job
          [ScanService.ScanRejected (JStr "parse failure");
           ScanService.TimerFired])
     = [Rejected (ScanError_object
          {| code := SCAN_ERROR;
             message := "Unknown scan error";
             scanId := Some (job_scanId sample_job);
             timeoutMs := None;
             details := None |})].
Proof.
  split; [|split].
  - apply (proj1 (C4_inline_work_failure sample_job
                    (JError "timed out upstream" [("code", JStr "SCAN_TIMEOUT")])
                    [ScanService.TimerFired])).
    reflexivity.
  - apply (proj1 (proj2 (C4_inline_work_failure sample_job
                           (JError "parse failure" [])
                           [ScanService.TimerFired]))
             ltac:(discriminate) "parse failure" []).
    reflexivity.
  - apply (proj2 (proj2 (C4_inline_work_failure sample_job
                           (JStr "parse failure")
                           [ScanService.TimerFired]))).
    + discriminate.
    + reflexivity.
Defined.

(** ** Fault outcomes *)

(** The faults that the coordinators build themselves carry the id of the
    job: the wrapped error of the inline coordinator and the errors built by
    the ['error'] and ['exit'] handlers.  So does the error that the [catch]
    block inside [performScan] posts. *)
Lemma fault_paths_with_scanId (j : Job) :
  (forall error, scanId (ScanService.wrappedError j error) = Some (job_scanId j))
  /\ (forall m props rest pre,
        WorkerScanService.quiet pre = true ->
        exists e,
          WorkerScanService.promise
            (WorkerScanService.run j (pre ++ WorkerScanService.OnError m props :: rest))
          = Some (Rejected (ScanError_object e))
          /\ code e = SCAN_ERROR /\ message e = m
          /\ scanId e = Some (job_scanId j))
  /\ (forall workerData error,
        scanId (ScanWorker.errorResult workerData error)
        = Some (ScanWorker.data_scanId workerData)).
Proof.
  split; [|split].
  - reflexivity.
  - intros m props rest pre Hq. eexists. split.
    + apply promise_single.
      rewrite (worker_run_first_competing j pre (WorkerScanService.OnError m props)
                 rest Hq eq_refl).
      apply worker_first_error.
    + repeat split.
  - reflexivity.
Qed.

(** C5 at a failing run.  The analysis inside the worker throws an object
    that holds a function.  The [catch] block of [performScan] builds its
    error with the id of the job, but [postMessage] cannot clone it and
    throws; [performScan().catch] then posts an error that has no [scanId],
    and the coordinator rejects the job with that error as it is. *)
Theorem C5_fatal_worker_error_has_no_scanId :
  let workerData := {| ScanWorker.contractCode := "contract C {}";
                       ScanWorker.data_scanId := job_scanId sample_job |} in
  let thrown := JObject [("reason", JStr "engine failure");
                         ("retry", JFunction)] in
  let posted := ScanWorker.posted workerData true (Num 1700000000100)
                  (ScanWorker.throw thrown) in
  let outcome := {| code := SCAN_ERROR;
                    message := "The object could not be cloned.";
                    scanId := None;
                    timeoutMs := None;
                    details := Some ScanWorker.DataCloneError |} in
  posted = [WorkerScanService.ErrorData outcome]
  /\ WorkerScanService.promise
       (WorkerScanService.run sample_job (map WorkerScanService.OnMessage posted))
     = Some (Rejected (ScanError_object outcome))
  /\ get (ScanError_object outcome) "code" = JStr "SCAN_ERROR"
  /\ has_property "scanId" (ScanError_object outcome) = false.
Proof. repeat split. Qed.

(** ** Forced termination on timeout *)

(** C7: in a worker, when the timer is the first signal to compete, the
    handlers do three things and in this order: [worker.terminate()], a
    warning in the log, and [reject] with the timeout error.  Nothing is done
    after that, whatever else arrives. *)
Theorem C7_terminate_before_timeout_outcome (j : Job)
    (pre rest : list WorkerScanService.event) :
  WorkerScanService.quiet pre = true ->
  exists warning,
    WorkerScanService.effects
      (WorkerScanService.run j (pre ++ WorkerScanService.TimerFired :: rest))
    = (WorkerScanService.effects (WorkerScanService.start j)
       ++ [WorkerScanService.Terminate;
           WorkerScanService.Log warning;
           WorkerScanService.Reject (WorkerScanService.timeoutError j)])%list
    /\ WorkerScanService.settle_calls
         (WorkerScanService.effects (WorkerScanService.start j)) = [].
Proof.
  intros Hq. eexists. split.
  - rewrite (worker_run_first_competing j pre WorkerScanService.TimerFired
               rest Hq eq_refl).
    reflexivity.
  - reflexivity.
Qed.

Lemma C7_terminate_before_timeout_outcome_witness :
  exists warning,
    WorkerScanService.effects
      (WorkerScanService.run sample_job
         ([] ++ WorkerScanService.TimerFired
             :: [WorkerScanService.OnExit 1]))
    = (WorkerScanService.effects (WorkerScanService.start sample_job)
       ++ [WorkerScanService.Terminate;
           WorkerScanService.Log warning;
           WorkerScanService.Reject (WorkerScanService.timeoutError sample_job)])%list
    /\ WorkerScanService.settle_calls
         (WorkerScanService.effects (WorkerScanService.start sample_job)) = [].
Proof.
  apply (C7_terminate_before_timeout_outcome sample_job []
           [WorkerScanService.OnExit 1]).
  reflexivity.
Defined.

(** ** Abnormal exit of the worker *)

(** C8: in a worker, when an exit with a non-zero code is the first signal
    to compete (no message, no error and no timer before it), the job is
    rejected with a [SCAN_ERROR] whose message names the exit code and whose
    [scanId] is the id of the job. *)
Theorem C8_abnormal_exit_faults (j : Job) (exit_code : Z)
    (pre rest : list WorkerScanService.event) :
  WorkerScanService.quiet pre = true ->
  exit_code <> 0 ->
  WorkerScanService.promise
    (WorkerScanService.run j (pre ++ WorkerScanService.OnExit exit_code :: rest))
  = Some (Rejected (ScanError_object
       {| code := SCAN_ERROR;
          message := "Worker exited unexpectedly with code "
                     ++ number_to_string (Num exit_code);
          scanId := Some (job_scanId j);
          timeoutMs := None;
          details := None |})).
Proof.
  intros Hq Hc.
  apply promise_single.
  rewrite (worker_run_first_competing j pre (WorkerScanService.OnExit exit_code) rest Hq).
  - now apply worker_first_exit.
  - cbn [WorkerScanService.competes]. now apply negb_true_iff, Z.eqb_neq.
Qed.

Lemma C8_abnormal_exit_faults_witness :
  WorkerScanService.promise
    (WorkerScanService.run sample_job
       ([] ++ WorkerScanService.OnExit 1 :: [WorkerScanService.TimerFired]))
  = Some (Rejected (ScanError_object
       {| code := SCAN_ERROR;
          message := "Worker exited unexpectedly with code 1";
          scanId := Some (job_scanId sample_job);
          timeoutMs := None;
          details := None |})).
Proof.
  apply (C8_abnormal_exit_faults sample_job 1 [] [WorkerScanService.TimerFired]).
  - reflexivity.
  - lia.
Defined.

(** ** Completion before the deadline *)




(** ** Clean exit without a message *)

(** C10: in a worker, an exit with code [0] that comes before any message
    does not resolve the job: the flag stays unset, nothing is settled and
    the timer stays pending.  When the timer then fires, the job is rejected
    with the timeout error. *)
Theorem C10_clean_exit_leaves_job_to_timer (j : Job) :
  let s := WorkerScanService.run j [WorkerScanService.OnExit 0] in
  WorkerScanService.isResolved s = false
  /\ WorkerScanService.promise s = None
  /\ WorkerScanService.timer_pending s = true
  /\ forall rest,
       WorkerScanService.promise
         (WorkerScanService.run j
            (WorkerScanService.OnExit 0 :: WorkerScanService.TimerFired :: rest))
       = Some (Rejected (ScanError_object (WorkerScanService.timeoutError j))).
Proof.
  repeat split.
  intros rest. apply promise_single.
  change (WorkerScanService.OnExit 0 :: WorkerScanService.TimerFired :: rest)
    with ([WorkerScanService.OnExit 0] ++ WorkerScanService.TimerFired :: rest)%list.
  rewrite (worker_run_first_competing j [WorkerScanService.OnExit 0]
             WorkerScanService.TimerFired rest eq_refl eq_refl).
  apply worker_first_timer.
Qed.

(* ===================================================================== *)
(** * Further properties *)
(* ===================================================================== *)

(** ** Timeouts and ids of jobs *)

(** X1: whatever the configuration and the options, the timeout of a job is
    a number other than [0] and [NaN], in both coordinators: asking for
    [timeoutMs: 0] does not switch the deadline off, it selects the
    default. *)
Theorem X1_effective_timeout_is_nonzero (configService : ConfigService)
    (options : option ScanOptions) (generated : string) :
  exists z,
    z <> 0
    /\ job_timeoutMs
         (ScanService.job (fst (ScanService.constructor configService))
            options generated) = Num z
    /\ job_timeoutMs
         (WorkerScanService.job (fst (WorkerScanService.constructor configService))
            options generated) = Num z.
Proof.
  rewrite inline_job_timeout, worker_job_timeout.
  pose proof (resolve_truthy (options_timeoutMs options)
                (configService "SCAN_MAX_EXECUTION_TIME_MS")) as Ht.
  destruct (resolve _ _ _) as [z|]; [|discriminate].
  exists z. repeat split.
  apply negb_true_iff, Z.eqb_neq in Ht. exact Ht.
Qed.

Lemma or_else_string_nonempty (a : option string) (b : string) :
  b <> "" -> or_else a b <> "".
Proof.
  intros Hb. unfold or_else.
  destruct a as [[|c s]|]; cbn; [exact Hb | discriminate | exact Hb].
Qed.

(** X2: the id of a job is never the empty text: an empty [scanId] option is
    replaced by a generated id like a missing one, and a generated id is not
    empty.  The ids that the two coordinators generate never coincide. *)
Theorem X2_job_id_is_never_empty (now : number) (random : string)
    (options : option ScanOptions) :
  (forall this,
     job_scanId (ScanService.job this options
                   (ScanService.generateScanId now random)) <> "")
  /\ (forall this,
        job_scanId (WorkerScanService.job this options
                      (WorkerScanService.generateScanId now random)) <> "")
  /\ (options_scanId options = Some "" ->
      forall this,
        job_scanId (ScanService.job this options
                      (ScanService.generateScanId now random))
        = ScanService.generateScanId now random)
  /\ (forall now' random',
        ScanService.generateScanId now random
        <> WorkerScanService.generateScanId now' random').
Proof.
  repeat split.
  - intros this. apply or_else_string_nonempty. discriminate.
  - intros this. apply or_else_string_nonempty. discriminate.
  - intros Ho this. cbn [ScanService.job job_scanId]. now rewrite Ho.
  - intros now' random'. discriminate.
Qed.

Lemma X2_job_id_is_never_empty_witness :
  job_scanId
    (ScanService.job (fst (ScanService.constructor (config_with None)))
       (Some {| opt_timeoutMs := None; opt_scanId := Some "" |})
       (ScanService.generateScanId (Num 1700000000000) "k3x9q2m1a"))
  = "scan_1700000000000_k3x9q2m1a".
Proof.
  apply (proj1 (proj2 (proj2 (X2_job_id_is_never_empty (Num 1700000000000)
                               "k3x9q2m1a"
                               (Some {| opt_timeoutMs := None;
                                        opt_scanId := Some "" |}))))).
  reflexivity.
Defined.

(** ** The inline coordinator *)

(** X3: every outcome of [executeScan] can be told apart by its caller: it
    is a result, and then the result that the scan itself produced, or it is
    a rejection with an object whose [code] is ['SCAN_TIMEOUT'] or
    ['SCAN_ERROR'].  No other value leaves the function, whatever the scan
    throws. *)
Theorem X3_inline_outcomes_are_typed (j : Job) (signals : list ScanService.signal)
    (outcome : settlement) :
  In outcome (ScanService.returned (ScanService.run j signals)) ->
  match outcome with
  | Fulfilled result => In (ScanService.ScanFulfilled result) signals
  | Rejected e =>
      get e "code" = JStr "SCAN_TIMEOUT" \/ get e "code" = JStr "SCAN_ERROR"
  end.
Proof.
  destruct signals as [|sig rest]; [intros []|].
  rewrite inline_run_first_signal. intros [<- | []].
  destruct sig as [result | error |];
    cbn [ScanService.signal_settlement ScanService.after_race snd].
  - now left.
  - destruct (ScanService.is_timeout_error error) eqn:Ht; cbn [snd].
    + left. apply is_timeout_error_spec in Ht. unfold get. now rewrite Ht.
    + right. reflexivity.
  - left. reflexivity.
Qed.

Lemma X3_inline_outcomes_are_typed_witness :
  get (JObject [("code", JStr "SCAN_TIMEOUT")]) "code" = JStr "SCAN_TIMEOUT"
  \/ get (JObject [("code", JStr "SCAN_TIMEOUT")]) "code" = JStr "SCAN_ERROR".
Proof.
  apply (X3_inline_outcomes_are_typed sample_job
           [ScanService.ScanRejected (JObject [("code", JStr "SCAN_TIMEOUT")])]
           (Rejected (JObject [("code", JStr "SCAN_TIMEOUT")]))).
  left. reflexivity.
Defined.

Section InlineLog.

Import ScanService.

Variable j : Job.

Lemma race_settles_log s by_ x :
  In x (log s) -> In x (log (race_settles j s by_)).
Proof.
  unfold race_settles. destruct (race s); [auto|].
  cbn [log]. intros H. apply in_or_app. now left.
Qed.

Lemma race_settles_timeoutPromise s by_ :
  timeoutPromise (race_settles j s by_) = timeoutPromise s.
Proof. unfold race_settles. now destruct (race s). Qed.

(** Log entries are never removed. *)
Lemma inline_log_grows s sig x :
  In x (log s) -> In x (log (step j s sig)).
Proof.
  intros H.
  destruct sig; cbn [step]; unfold scan_settles, timer_fires.
  - destruct (scanPromise s); [exact H|]. now apply race_settles_log.
  - destruct (scanPromise s); [exact H|]. now apply race_settles_log.
  - destruct (timeoutPromise s); [exact H|].
    apply race_settles_log. cbn [log]. apply in_or_app. now left.
Qed.

Lemma inline_warned_step s sig : warned j s -> warned j (step j s sig).
Proof.
  intros Hw.
  destruct sig; cbn [step]; unfold scan_settles, timer_fires.
  - destruct (scanPromise s); [exact Hw|].
    intros Ht. rewrite race_settles_timeoutPromise in Ht.
    apply race_settles_log. cbn [log]. apply Hw. exact Ht.
  - destruct (scanPromise s); [exact Hw|].
    intros Ht. rewrite race_settles_timeoutPromise in Ht.
    apply race_settles_log. cbn [log]. apply Hw. exact Ht.
  - destruct (timeoutPromise s) eqn:Hp.
    + intros _. apply Hw. congruence.
    + intros _. apply race_settles_log. cbn [log].
      apply in_or_app. right. now left.
Qed.

Lemma inline_timer_step_warns s :
  warned j s -> In (timeout_warning j) (log (step j s TimerFired)).
Proof.
  intros Hw. apply (inline_warned_step s TimerFired Hw).
  cbn [step]. unfold timer_fires.
  destruct (timeoutPromise s) eqn:Hp; [congruence|].
  rewrite race_settles_timeoutPromise. discriminate.
Qed.

Lemma inline_timer_warns signals : forall s,
  warned j s ->
  In TimerFired signals ->
  In (timeout_warning j) (log (fold_left (step j) signals s)).
Proof.
  induction signals as [|sig rest IH]; intros s Hw Hin; [destruct Hin|].
  cbn [fold_left].
  destruct Hin as [-> | Hin].
  - pose proof (inline_timer_step_warns s Hw) as H.
    clear IH. revert H. generalize (step j s TimerFired).
    induction rest as [|sig rest IH]; intros s' H; [exact H|].
    cbn [fold_left]. apply IH. now apply inline_log_grows.
  - apply IH; [now apply inline_warned_step | exact Hin].
Qed.

End InlineLog.

(** X4: the inline coordinator never cancels its timer.  Whenever the timer
    callback runs, the warning that the scan timed out is written to the
    log, also when the scan had completed before: the outcome is then still
    the result of the scan. *)
Theorem X4_inline_timer_is_never_cancelled (j : Job) :
  (forall signals,
     In ScanService.TimerFired signals ->
     In (ScanService.timeout_warning j)
        (ScanService.log (ScanService.run j signals)))
  /\ (forall result rest,
        In ScanService.TimerFired rest ->
        let s := ScanService.run j (ScanService.ScanFulfilled result :: rest) in
        ScanService.returned s = [Fulfilled result]
        /\ In (ScanService.timeout_warning j) (ScanService.log s)).
Proof.
  assert (Hwarn : forall signals,
     In ScanService.TimerFired signals ->
     In (ScanService.timeout_warning j)
        (ScanService.log (ScanService.run j signals))).
  { intros signals Hin. unfold ScanService.run.
    apply inline_timer_warns; [|exact Hin].
    intros Ht. now contradiction Ht. }
  split; [exact Hwarn|].
  intros result rest Hin s. split.
  - apply inline_run_first_signal.
  - apply Hwarn. now right.
Qed.

Lemma X4_inline_timer_is_never_cancelled_witness :
  ScanService.returned
    (ScanService.run sample_job
       [ScanService.ScanFulfilled sample_result; ScanService.TimerFired])
  = [Fulfilled sample_result]
  /\ In (ScanService.timeout_warning sample_job)
        (ScanService.log
           (ScanService.run sample_job
              [ScanService.ScanFulfilled sample_result; ScanService.TimerFired])).
Proof.
  apply (proj2 (X4_inline_timer_is_never_cancelled sample_job) sample_result
           [ScanService.TimerFired]).
  left. reflexivity.
Defined.

(** ** The worker coordinator *)

Section WorkerState.

Import WorkerScanService.

Variable j : Job.

Lemma settle_calls_snoc_length es es' :
  List.length (settle_calls es) = 0%nat ->
  List.length (settle_calls es') = 1%nat ->
  List.length (settle_calls (es ++ es')) = 1%nat.
Proof.
  intros H0 H1. rewrite settle_calls_app, length_app. lia.
Qed.

Lemma worker_consistent_step s ev :
  consistent s -> consistent (step j s ev).
Proof.
  intros [Ht Hl].
  destruct (isResolved s) eqn:Hr.
  - (* resolved: the timer is off and every handler returns *)
    cbn [negb] in Ht.
    assert (Hs : step j s ev = s).
    { destruct ev; cbn [step];
        unfold on_message, on_error, on_exit; rewrite ?Ht, ?Hr; reflexivity. }
    rewrite Hs. split; [now rewrite Hr | now rewrite Hr].
  - cbn [negb] in Ht.
    destruct ev as [|result|m props|c]; cbn [step];
      unfold on_timeout, on_message, on_error, on_exit.
    + rewrite Ht. cbn [isResolved negb]. rewrite Hr. cbn [negb].
      split; [reflexivity|]. cbn [isResolved effects].
      now apply settle_calls_snoc_length.
    + rewrite Hr. cbn [negb]. split; [reflexivity|]. cbn [isResolved effects].
      apply settle_calls_snoc_length; [exact Hl|].
      destruct result as [r | [[] ? ? ? ?]]; reflexivity.
    + rewrite Hr. cbn [negb]. split; [reflexivity|]. cbn [isResolved effects].
      now apply settle_calls_snoc_length.
    + rewrite Hr. cbn [negb andb].
      destruct (c =? 0); cbn [negb].
      * split; [now rewrite Hr | now rewrite Hr].
      * split; [reflexivity|]. cbn [isResolved effects].
        now apply settle_calls_snoc_length.
Qed.

Lemma worker_consistent_run events : forall s,
  consistent s -> consistent (fold_left (step j) events s).
Proof.
  induction events as [|ev rest IH]; intros s Hs; [exact Hs|].
  cbn [fold_left]. apply IH. now apply worker_consistent_step.
Qed.

Lemma worker_first_cleanup ev :
  competes ev = true ->
  terminations (effects (run j [ev])) = (if is_timer ev then 1 else 0)%nat
  /\ timer_clears (effects (run j [ev])) = (if is_timer ev then 0 else 1)%nat.
Proof.
  intros Hc.
  destruct ev as [|[r | [[] ? ? ? ?]]|m props|c]; try (split; reflexivity).
  cbn [competes] in Hc. apply negb_true_iff in Hc.
  unfold run. cbn [fold_left step]. unfold on_exit.
  cbn [start isResolved negb andb]. rewrite Hc. split; reflexivity.
Qed.

End WorkerState.

(** X5: at every point of every run of a worker job the [isResolved] flag,
    the timer and the promise agree: the timer is pending exactly while the
    flag is unset, and the flag is set exactly when [resolve] or [reject]
    has been called, which then has happened once.  So no timer is left
    behind by a settled job, and the flag is never set without an outcome
    for the caller. *)
Theorem X5_worker_flag_timer_promise_agree (j : Job)
    (events : list WorkerScanService.event) :
  let s := WorkerScanService.run j events in
  WorkerScanService.timer_pending s = negb (WorkerScanService.isResolved s)
  /\ (WorkerScanService.isResolved s = true
      <-> WorkerScanService.promise s <> None)
  /\ List.length (WorkerScanService.settle_calls (WorkerScanService.effects s))
     = if WorkerScanService.isResolved s then 1%nat else 0%nat.
Proof.
  intros s.
  assert (Hc : WorkerScanService.consistent s).
  { apply worker_consistent_run. split; reflexivity. }
  destruct Hc as [Ht Hl].
  split; [exact Ht | split; [|exact Hl]].
  unfold WorkerScanService.promise.
  destruct (WorkerScanService.isResolved s).
  - destruct (WorkerScanService.settle_calls (WorkerScanService.effects s))
      as [|o [|o' rest]]; try discriminate.
    cbn. split; [discriminate | reflexivity].
  - destruct (WorkerScanService.settle_calls (WorkerScanService.effects s));
      [|discriminate].
    cbn. split; [discriminate | congruence].
Qed.

(** X6: the coordinator cleans up once, and which way depends on the
    winner.  When the timer is the first signal to compete, the worker is
    terminated once and [clearTimeout] is not called; when a message, an
    error or a non-zero exit wins, the timer is cleared once and the worker
    is not terminated: it is left to end by itself.  Before any competing
    signal neither has happened. *)
Theorem X6_worker_cleanup_by_winner (j : Job) :
  (forall pre ev rest,
     WorkerScanService.quiet pre = true ->
     WorkerScanService.competes ev = true ->
     let es := WorkerScanService.effects
                 (WorkerScanService.run j (pre ++ ev :: rest)) in
     WorkerScanService.terminations es
     = (if WorkerScanService.is_timer ev then 1 else 0)%nat
     /\ WorkerScanService.timer_clears es
        = (if WorkerScanService.is_timer ev then 0 else 1)%nat)
  /\ (forall events,
        WorkerScanService.quiet events = true ->
        let es := WorkerScanService.effects (WorkerScanService.run j events) in
        WorkerScanService.terminations es = 0%nat
        /\ WorkerScanService.timer_clears es = 0%nat).
Proof.
  split.
  - intros pre ev rest Hq Hc es. subst es.
    rewrite (worker_run_first_competing j pre ev rest Hq Hc).
    now apply worker_first_cleanup.
  - intros events Hq es. subst es.
    rewrite (worker_quiet_run j events Hq). split; reflexivity.
Qed.

Lemma X6_worker_cleanup_by_winner_witness :
  WorkerScanService.terminations
    (WorkerScanService.effects
       (WorkerScanService.run sample_job
          ([WorkerScanService.OnExit 0]
           ++ WorkerScanService.OnMessage (WorkerScanService.ResultData sample_result)
           :: [WorkerScanService.TimerFired]))) = 0%nat
  /\ WorkerScanService.timer_clears
       (WorkerScanService.effects
          (WorkerScanService.run sample_job
             ([WorkerScanService.OnExit 0]
              ++ WorkerScanService.OnMessage (WorkerScanService.ResultData sample_result)
              :: [WorkerScanService.TimerFired]))) = 1%nat.
Proof.
  apply (proj1 (X6_worker_cleanup_by_winner sample_job)
           [WorkerScanService.OnExit 0]
           (WorkerScanService.OnMessage (WorkerScanService.ResultData sample_result))
           [WorkerScanService.TimerFired]); reflexivity.
Defined.

(** ** The worker script *)

Section WorkerScript.

Import WorkerScanService ScanWorker.

Variable workerData : WorkerData.
Variable now : number.

(** What the script posts, by what the analysis does. *)
Lemma script_posts_result :
  posted workerData true now (analysis_of Completes)
  = [ResultData (result workerData now)].
Proof. reflexivity. Qed.

Lemma script_posts_error e e' :
  structured_clone e = Some e' ->
  posted workerData true now (analysis_of (Fails e))
  = [ErrorData {| code := SCAN_ERROR;
                  message := match e with
                             | JError m _ => m
                             | _ => "Unknown error in worker"
                             end;
                  scanId := Some (data_scanId workerData);
                  timeoutMs := None;
                  details := Some e' |}].
Proof.
  intros Hc.
  unfold posted, main, performScan, try_catch, bind, analysis_of, throw, ret.
  cbn [negb]. unfold postMessage, clone_data. cbn [details errorResult].
  rewrite Hc. reflexivity.
Qed.

Lemma script_posts_fatal_error e :
  structured_clone e = None ->
  posted workerData true now (analysis_of (Fails e))
  = [ErrorData (fatalErrorResult DataCloneError)].
Proof.
  intros Hc.
  unfold posted, main, performScan, try_catch, bind, analysis_of, throw, ret.
  cbn [negb]. unfold postMessage, clone_data. cbn [details errorResult].
  rewrite Hc. reflexivity.
Qed.

Lemma script_without_port b :
  posted workerData false now (analysis_of b) = [].
Proof. destruct b; reflexivity. Qed.

(** Whether the analysis returns or throws, nothing is thrown out of the
    script. *)
Lemma script_never_throws parentPort b :
  fst (main workerData parentPort now (analysis_of b) []) = Returns tt.
Proof.
  unfold main, performScan, try_catch, bind, analysis_of, throw, ret.
  destruct parentPort; cbn [negb].
  - destruct b as [|e]; [reflexivity|].
    unfold postMessage, clone_data. cbn [details errorResult].
    destruct (structured_clone e); reflexivity.
  - destruct b; reflexivity.
Qed.

End WorkerScript.

(** A message that arrives first decides the run. *)
Lemma worker_message_first (j : Job) (data : WorkerScanService.message_data)
    (rest : list WorkerScanService.event) :
  WorkerScanService.effects
    (WorkerScanService.run j (WorkerScanService.OnMessage data :: rest))
  = WorkerScanService.effects
      (WorkerScanService.run j [WorkerScanService.OnMessage data]).
Proof.
  exact (worker_run_first_competing j [] (WorkerScanService.OnMessage data)
           rest eq_refl eq_refl).
Qed.

(** X7: the worker as it is shipped, with the placeholder for the analysis,
    completes its job.  When its message reaches the coordinator before the
    timer, the job is fulfilled with a result that carries the id of the
    job, the status [completed] and no findings, whatever arrives
    afterwards. *)
Theorem X7_shipped_worker_completes_job (contractCode : string) (j : Job)
    (now : number) (rest : list WorkerScanService.event) :
  WorkerScanService.promise
    (WorkerScanService.run j
       (Isolated.messages contractCode j now ScanWorker.placeholder ++ rest))
  = Some (Fulfilled
            {| result_scanId := job_scanId j;
               status := status_completed;
               findings := [];
               executionTime := now;
               metadata := None |}).
Proof.
  apply promise_single.
  change (Isolated.messages contractCode j now ScanWorker.placeholder ++ rest)%list
    with (WorkerScanService.OnMessage
            (WorkerScanService.ResultData
               (ScanWorker.result (Isolated.workerData contractCode j) now))
          :: rest).
  rewrite worker_message_first.
  apply worker_first_result.
Qed.



(** X9: when the analysis inside the worker throws a value that
    [postMessage] cannot clone, a function or an object that holds one, the
    caller is not told for which job: the job is rejected with a
    [SCAN_ERROR] that has no [scanId]. *)
Theorem X9_uncloneable_failure_hides_cause (contractCode : string) (j : Job)
    (now : number) (e : value) (rest : list WorkerScanService.event) :
  structured_clone e = None ->
  exists err,
    WorkerScanService.promise
      (WorkerScanService.run j
         (Isolated.messages contractCode j now
            (ScanWorker.analysis_of (ScanWorker.Fails e)) ++ rest))
    = Some (Rejected (ScanError_object err))
    /\ code err = SCAN_ERROR
    /\ scanId err = None
    /\ has_property "scanId" (ScanError_object err) = false.
Proof.
  intros Hc.
  exists (ScanWorker.fatalErrorResult ScanWorker.DataCloneError).
  split; [|repeat split].
  apply promise_single.
  unfold Isolated.messages.
  rewrite (script_posts_fatal_error _ now e Hc).
  cbn [map app].
  rewrite worker_message_first.
  apply worker_first_error_message.
Qed.

Lemma X9_uncloneable_failure_hides_cause_witness :
  exists err,
    WorkerScanService.promise
      (WorkerScanService.run sample_job
         (Isolated.messages "contract C {}" sample_job (Num 1700000000100)
            (ScanWorker.analysis_of
               (ScanWorker.Fails (JObject [("retry", JFunction)])))
          ++ [WorkerScanService.OnExit 0]))
    = Some (Rejected (ScanError_object err))
    /\ code err = SCAN_ERROR
    /\ scanId err = None
    /\ has_property "scanId" (ScanError_object err) = false.
Proof.
  apply (X9_uncloneable_failure_hides_cause "contract C {}" sample_job
           (Num 1700000000100) (JObject [("retry", JFunction)])
           [WorkerScanService.OnExit 0]).
  reflexivity.
Defined.

(** X10: with an analysis that returns, or throws where the script awaits
    it, the script posts exactly one message when it has a parent port and
    none when it has not; a message that is an error has the code
    [SCAN_ERROR]; and the exception does not leave the script: the promise
    of [performScan().catch(...)] is fulfilled. *)
Theorem X10_script_posts_one_message (workerData : ScanWorker.WorkerData)
    (parentPort : bool) (now : number) (b : ScanWorker.behaviour) :
  fst (ScanWorker.main workerData parentPort now (ScanWorker.analysis_of b) [])
  = ScanWorker.Returns tt
  /\ List.length
       (ScanWorker.posted workerData parentPort now (ScanWorker.analysis_of b))
     = (if parentPort then 1%nat else 0%nat)
  /\ (forall e,
        In (WorkerScanService.ErrorData e)
           (ScanWorker.posted workerData parentPort now (ScanWorker.analysis_of b)) ->
        code e = SCAN_ERROR).
Proof.
  split; [apply script_never_throws | split].
  - destruct parentPort.
    + destruct b as [|e].
      * now rewrite script_posts_result.
      * destruct (structured_clone e) as [e'|] eqn:Hc.
        -- now rewrite (script_posts_error _ now e e' Hc).
        -- now rewrite script_posts_fatal_error.
    + now rewrite script_without_port.
  - intros e Hin. destruct parentPort.
    + destruct b as [|thrown].
      * rewrite script_posts_result in Hin. destruct Hin as [H|[]]. discriminate.
      * destruct (structured_clone thrown) as [e'|] eqn:Hc.
        -- rewrite (script_posts_error _ now thrown e' Hc) in Hin.
           destruct Hin as [H|[]]. now inversion H.
        -- rewrite script_posts_fatal_error in Hin by exact Hc.
           destruct Hin as [H|[]]. now inversion H.
    + rewrite script_without_port in Hin. destruct Hin.
Qed.

Lemma X10_script_posts_one_message_witness :
  code (ScanWorker.errorResult
          {| ScanWorker.contractCode := "contract C {}";
             ScanWorker.data_scanId := "worker_scan_1" |}
          (JStr "boom")) = SCAN_ERROR.
Proof.
  apply (proj2 (proj2 (X10_script_posts_one_message
                         {| ScanWorker.contractCode := "contract C {}";
                            ScanWorker.data_scanId := "worker_scan_1" |}
                         true (Num 1700000000100)
                         (ScanWorker.Fails (JStr "boom"))))).
  left. reflexivity.
Defined.

(** ** The controller *)

Section ControllerFacts.

Import ScanController.

Variable ToString : value -> string.
Variable service : ScanService.t.
Variable generated : string.

Lemma validate_accepts c s timeout options :
  validate {| request_contractCode := JStr (String c s);
              request_timeoutMs := timeout;
              request_options := options |} = None.
Proof. reflexivity. Qed.

Lemma validate_refuses scanRequest :
  (forall c s, request_contractCode scanRequest <> JStr (String c s)) ->
  validate scanRequest
  = Some (CaughtBadRequest
            (JObject [("code", JStr "INVALID_INPUT");
                      ("message", JStr "contractCode is required and must be a string")])).
Proof.
  intros Hcc. unfold validate.
  destruct (request_contractCode scanRequest) as [| |b|n|s| | |] eqn:E;
    try reflexivity.
  - destruct b; reflexivity.
  - destruct n as [z|]; [|reflexivity].
    unfold to_boolean, value_ToBoolean, to_boolean, number_ToBoolean.
    now rewrite orb_true_r.
  - destruct s as [|c s]; [reflexivity|]. now contradiction (Hcc c s).
Qed.

(** With an accepted request the controller answers as the first outcome of
    [executeScan] tells it. *)
Lemma scanContract_accepted scanRequest signals :
  validate scanRequest = None ->
  fst (scanContract ToString service scanRequest generated signals)
  = match ScanService.returned
            (ScanService.run
               (ScanService.job service
                  (Some {| opt_timeoutMs := request_timeoutMs scanRequest;
                           opt_scanId := None |})
                  generated)
               signals) with
    | [] => None
    | Fulfilled result :: _ => Some (Returned result)
    | Rejected error :: _ => Some (Threw (handle ToString (CaughtRejection error)))
    end.
Proof.
  intros Hv. unfold scanContract. rewrite Hv.
  destruct (ScanService.returned _) as [|[result|error] rest]; reflexivity.
Qed.

End ControllerFacts.

Lemma contract_code_cases (v : value) :
  (exists c s, v = JStr (String c s)) \/ (forall c s, v <> JStr (String c s)).
Proof.
  destruct v as [| | | |[|c s]| | |]; try (right; intros; discriminate).
  left. now exists c, s.
Qed.

(** X11: a request whose [contractCode] is missing, is not a string or is
    the empty string is refused with a [BadRequestException] that says
    ['contractCode is required and must be a string'], at once and without
    a scan being started.  This is the only [BadRequestException] the
    controller ever throws: the answer ['contractCode cannot be empty'] is
    never given, because the empty string already fails the first check. *)
Theorem X11_controller_validation (ToString : value -> string)
    (service : ScanService.t) (generated : string)
    (scanRequest : ScanController.ScanRequestDto)
    (signals : list ScanService.signal) :
  let required :=
    JObject [("code", JStr "INVALID_INPUT");
             ("message", JStr "contractCode is required and must be a string")] in
  ((forall c s, ScanController.request_contractCode scanRequest <> JStr (String c s)) ->
   ScanController.scanContract ToString service scanRequest generated signals
   = (Some (ScanController.Threw (ScanController.BadRequestException required)),
      [LogError "Scan request failed:"]))
  /\ (forall response,
        fst (ScanController.scanContract ToString service scanRequest generated signals)
        = Some (ScanController.Threw (ScanController.BadRequestException response)) ->
        response = required
        /\ forall c s,
             ScanController.request_contractCode scanRequest <> JStr (String c s)).
Proof.
  intros required. split.
  - intros Hcc. unfold ScanController.scanContract.
    now rewrite (validate_refuses scanRequest Hcc).
  - intros response.
    destruct (contract_code_cases (ScanController.request_contractCode scanRequest))
      as [(c & s & Hcc) | Hcc].
    + destruct scanRequest as [cc t o]. cbn in Hcc. subst cc.
      rewrite scanContract_accepted by apply validate_accepts.
      destruct (ScanService.returned _) as [|[result|error] rest];
        try discriminate.
      cbn [ScanController.handle].
      destruct (ScanService.is_timeout_error error); discriminate.
    + unfold ScanController.scanContract.
      rewrite (validate_refuses scanRequest Hcc). cbn [fst ScanController.handle].
      intros H. inversion H. split; [reflexivity | exact Hcc].
Qed.

Lemma X11_controller_validation_witness :
  ScanController.scanContract (fun _ => "") (fst (ScanService.constructor (config_with None)))
    {| ScanController.request_contractCode := JStr "";
       ScanController.request_timeoutMs := None;
       ScanController.request_options := None |}
    "scan_1700000000000_k3x9q2m1a" [ScanService.TimerFired]
  = (Some (ScanController.Threw
             (ScanController.BadRequestException
                (JObject [("code", JStr "INVALID_INPUT");
                          ("message",
                           JStr "contractCode is required and must be a string")]))),
     [LogError "Scan request failed:"]).
Proof.
  apply (proj1 (X11_controller_validation (fun _ => "")
                  (fst (ScanService.constructor (config_with None)))
                  "scan_1700000000000_k3x9q2m1a"
                  {| ScanController.request_contractCode := JStr "";
                     ScanController.request_timeoutMs := None;
                     ScanController.request_options := None |}
                  [ScanService.TimerFired])).
  intros c s. discriminate.
Defined.

(** X12: for an accepted request, a timeout of the scan becomes a
    [RequestTimeoutException].  Its body holds the timeout error unchanged,
    with the generated id of the job and the timeout that the deadline
    policy chose for the request, and a message that is the fixed sentence
    followed by the message of the error.  A rejection of the scan that
    carries the code ['SCAN_TIMEOUT'] itself is answered the same way. *)
Theorem X12_controller_timeout (ToString : value -> string)
    (service : ScanService.t) (generated contractCode : string)
    (timeout : option number) (options : option (list (string * value)))
    (rest : list ScanService.signal) :
  contractCode <> "" ->
  let scanRequest :=
    {| ScanController.request_contractCode := JStr contractCode;
       ScanController.request_timeoutMs := timeout;
       ScanController.request_options := options |} in
  let t := or_else timeout (ScanService.maxExecutionTime service) in
  let error :=
    {| code := SCAN_TIMEOUT;
       message := "Scan exceeded maximum execution time of "
                  ++ number_to_string t ++ "ms";
       scanId := Some generated;
       timeoutMs := Some t;
       details := None |} in
  ((forall s, ToString (JStr s) = s) ->
   fst (ScanController.scanContract ToString service scanRequest generated
          (ScanService.TimerFired :: rest))
   = Some (ScanController.Threw
             (ScanController.RequestTimeoutException
                (JObject [("error", ScanError_object error);
                          ("message",
                           JStr ("Scan exceeded maximum execution time. "
                                 ++ message error))]))))
  /\ (forall e,
        lookup "code" (properties e) = Some (JStr "SCAN_TIMEOUT") ->
        fst (ScanController.scanContract ToString service scanRequest generated
               (ScanService.ScanRejected e :: rest))
        = Some (ScanController.Threw
                  (ScanController.RequestTimeoutException
                     (JObject [("error", e);
                               ("message",
                                JStr ("Scan exceeded maximum execution time. "
                                      ++ ToString (get e "message")))])))).
Proof.
  intros Hcc scanRequest t error.
  destruct contractCode as [|c s]; [now contradiction Hcc|].
  split.
  - intros HToString.
    rewrite scanContract_accepted by apply validate_accepts.
    rewrite inline_run_first_signal.
    cbn [ScanService.signal_settlement].
    change (ScanService.after_race
              (ScanService.job service
                 (Some {| opt_timeoutMs := ScanController.request_timeoutMs scanRequest;
                          opt_scanId := None |}) generated)
              (Rejected (ScanError_object
                 (ScanService.timeoutError
                    (ScanService.job service
                       (Some {| opt_timeoutMs :=
                                  ScanController.request_timeoutMs scanRequest;
                                opt_scanId := None |}) generated)))))
      with (@nil log_entry, Rejected (ScanError_object error)).
    cbn [snd].
    change (ScanController.handle ToString
              (ScanController.CaughtRejection (ScanError_object error)))
      with (ScanController.RequestTimeoutException
              (JObject [("error", ScanError_object error);
                        ("message",
                         JStr ("Scan exceeded maximum execution time. "
                               ++ ToString (JStr (message error))))])).
    now rewrite HToString.
  - intros e He.
    rewrite scanContract_accepted by apply validate_accepts.
    rewrite inline_run_first_signal.
    cbn [ScanService.signal_settlement ScanService.after_race].
    apply is_timeout_error_spec in He. rewrite He. cbn [snd ScanController.handle].
    now rewrite He.
Qed.

Lemma X12_controller_timeout_witness :
  fst (ScanController.scanContract
         (fun v => match v with JStr s => s | _ => "" end)
         (fst (ScanService.constructor (config_with (Some (Num 30000)))))
         {| ScanController.request_contractCode := JStr "contract C {}";
            ScanController.request_timeoutMs := None;
            ScanController.request_options := None |}
         "scan_1234567890_abc123"
         [ScanService.TimerFired])
  = Some (ScanController.Threw
            (ScanController.RequestTimeoutException
               (JObject
                  [("error",
                    ScanError_object
                      {| code := SCAN_TIMEOUT;
                         message := "Scan exceeded maximum execution time of 30000ms";
                         scanId := Some "scan_1234567890_abc123";
                         timeoutMs := Some (Num 30000);
                         details := None |});
                   ("message",
                    JStr "Scan exceeded maximum execution time. Scan exceeded maximum execution time of 30000ms")]))).
Proof.
  apply (proj1 (X12_controller_timeout
                  (fun v => match v with JStr s => s | _ => "" end)
                  (fst (ScanService.constructor (config_with (Some (Num 30000)))))
                  "scan_1234567890_abc123" "contract C {}" None None []
                  ltac:(discriminate))).
  intros s. reflexivity.
Defined.

(** X13: for an accepted request, a failure of the scan that is not a
    timeout reaches the client as [{ error: { code: 'SCAN_ERROR', message:
    'Unknown error occurred' } }], whatever the scan threw.  The service has
    wrapped the failure in a plain object, so the controller finds no
    [Error] to take a message from: neither the message of the failure nor
    the id of the job is passed on. *)
Theorem X13_controller_hides_fault (ToString : value -> string)
    (service : ScanService.t) (generated contractCode : string)
    (timeout : option number) (options : option (list (string * value)))
    (e : value) (rest : list ScanService.signal) :
  contractCode <> "" ->
  lookup "code" (properties e) <> Some (JStr "SCAN_TIMEOUT") ->
  fst (ScanController.scanContract ToString service
         {| ScanController.request_contractCode := JStr contractCode;
            ScanController.request_timeoutMs := timeout;
            ScanController.request_options := options |}
         generated (ScanService.ScanRejected e :: rest))
  = Some (ScanController.Threw
            (ScanController.Plain
               (JObject
                  [("error",
                    ScanError_object
                      {| code := SCAN_ERROR;
                         message := "Unknown error occurred";
                         scanId := None;
                         timeoutMs := None;
                         details := None |})]))).
Proof.
  intros Hcc He.
  destruct contractCode as [|c s]; [now contradiction Hcc|].
  rewrite scanContract_accepted by apply validate_accepts.
  rewrite inline_run_first_signal.
  cbn [ScanService.signal_settlement ScanService.after_race].
  destruct (ScanService.is_timeout_error e) eqn:Ht.
  - now apply is_timeout_error_spec in Ht.
  - reflexivity.
Qed.

Lemma X13_controller_hides_fault_witness :
  fst (ScanController.scanContract (fun _ => "")
         (fst (ScanService.constructor (config_with None)))
         {| ScanController.request_contractCode := JStr "contract C {}";
            ScanController.request_timeoutMs := None;
            ScanController.request_options := None |}
         "scan_1234567890_abc123"
         [ScanService.ScanRejected (JError "parse failure at line 3" [])])
  = Some (ScanController.Threw
            (ScanController.Plain
               (JObject
                  [("error",
                    ScanError_object
                      {| code := SCAN_ERROR;
                         message := "Unknown error occurred";
                         scanId := None;
                         timeoutMs := None;
                         details := None |})]))).
Proof.
  apply (X13_controller_hides_fault (fun _ => "")
           (fst (ScanService.constructor (config_with None)))
           "scan_1234567890_abc123" "contract C {}" None None
           (JError "parse failure at line 3" []) []);
    discriminate.
Defined.

(** X14: for an accepted request the controller answers once, by the first
    signal of the scan.  Before any signal it has not answered; when the
    scan fulfils first it returns the result of the scan as it is; and no
    later signal changes the answer. *)
Theorem X14_controller_answers_by_first_signal (ToString : value -> string)
    (service : ScanService.t) (generated contractCode : string)
    (timeout : option number) (options : option (list (string * value))) :
  contractCode <> "" ->
  let scanRequest :=
    {| ScanController.request_contractCode := JStr contractCode;
       ScanController.request_timeoutMs := timeout;
       ScanController.request_options := options |} in
  fst (ScanController.scanContract ToString service scanRequest generated []) = None
  /\ (forall result rest,
        fst (ScanController.scanContract ToString service scanRequest generated
               (ScanService.ScanFulfilled result :: rest))
        = Some (ScanController.Returned result))
  /\ (forall sig rest,
        fst (ScanController.scanContract ToString service scanRequest generated
               (sig :: rest))
        = fst (ScanController.scanContract ToString service scanRequest generated [sig])
        /\ fst (ScanController.scanContract ToString service scanRequest generated
                  (sig :: rest)) <> None).
Proof.
  intros Hcc scanRequest.
  destruct contractCode as [|c s]; [now contradiction Hcc|].
  split; [reflexivity | split].
  - intros result rest.
    rewrite scanContract_accepted by apply validate_accepts.
    now rewrite inline_run_first_signal.
  - intros sig rest.
    rewrite !scanContract_accepted by apply validate_accepts.
    rewrite !inline_run_first_signal.
    split; [reflexivity|].
    destruct (snd (ScanService.after_race _ _)); discriminate.
Qed.

Lemma X14_controller_answers_by_first_signal_witness :
  fst (ScanController.scanContract (fun _ => "")
         (fst (ScanService.constructor (config_with None)))
         {| ScanController.request_contractCode := JStr "contract C {}";
            ScanController.request_timeoutMs := Some (Num 500);
            ScanController.request_options := None |}
         "scan_1700000000000_k3x9q2m1a"
         [ScanService.ScanFulfilled sample_result; ScanService.TimerFired])
  = Some (ScanController.Returned sample_result).
Proof.
  apply (proj1 (proj2 (X14_controller_answers_by_first_signal (fun _ => "")
                         (fst (ScanService.constructor (config_with None)))
                         "scan_1700000000000_k3x9q2m1a" "contract C {}"
                         (Some (Num 500)) None ltac:(discriminate)))).
Defined.
